(** * Lumina Mini: a shallow embedding of the ingestion and query pipeline

    The development follows the layout of the Python package [app]:
    - [Py]                 the Python built-ins the code relies on (slicing,
                           [str.rfind], [str.strip], [re.sub(r"\s+", " ", _)]);
    - [Config]             [app/config.py];
    - [Ingestion]          [chunk_text] of [app/ingestion.py];
    - [Hashlib], [ChunkId] [hashlib.md5] and [generate_chunk_id];
    - [Model]              data model, exceptions, the outside world and
                           the monad of effectful code;
    - [Tenacity]           the retry decorator of [tenacity];
    - [Utils]              [app/utils.py];
    - [Embeddings]         [app/embeddings.py];
    - [Db]                 [app/db.py];
    - [IngestionPipeline]  [ingest_file] and [ingest_directory];
    - [RagEngine]          [app/rag_engine.py];
    - [Spec], [Examples]   notions of the specification and concrete inputs.
    The properties follow the definitions.

    Python integers are modelled as [Z], strings as lists of characters
    (code points below 256), dictionaries as [gmap].  [log_event] only
    writes to the process log and is not modelled, so a handler that
    logs and re-raises is the identity; the sampling temperature is
    forwarded to the provider unchanged and is left out. *)

From Stdlib Require Import ZArith Lia Ascii DecimalString.
From stdpp Require Import base list strings gmap sorting.

Local Open Scope Z_scope.
#[local] Set Warnings "-clear-no-such-hyp".

(** A Python [str]. *)
Abbreviation text := (list ascii).

(** String literals of the source, as [text]. *)
Definition txt (s : string) : text := String.list_ascii_of_string s.

(** [len(x)] as a Python integer. *)
Definition len {A} (l : list A) : Z := Z.of_nat (length l).

(* ================================================================== *)
(** ** Python built-ins *)
(* ================================================================== *)
Module Py.

(** [str.isspace] on one character, for code points below 256:
    TAB..CR, FS..US, SPACE, NEL and NBSP.  The regular-expression
    class [\s] of [re] on [str] patterns uses the same predicate. *)
Definition isspace (c : ascii) : bool :=
  let n := N_of_ascii c in
  ((9 <=? n) && (n <=? 13) || (28 <=? n) && (n <=? 31)
   || (n =? 32) || (n =? 133) || (n =? 160))%N.

(** Index normalisation of a slice [x[start:stop]] with step 1
    ([PySlice_AdjustIndices]): negative indices count from the end,
    and everything is clamped to [0 .. len]. *)
Definition slice_index (n i : Z) : Z :=
  if i <? 0 then Z.max 0 (i + n) else Z.min i n.

(** [x[start:stop]]. *)
Definition slice {A} (l : list A) (start stop : Z) : list A :=
  let lo := slice_index (len l) start in
  let hi := slice_index (len l) stop in
  take (Z.to_nat (hi - lo)) (drop (Z.to_nat lo) l).

(** [x[:stop]]. *)
Definition slice_to {A} (l : list A) (stop : Z) : list A := slice l 0 stop.

(** [s.startswith(sub)]. *)
Fixpoint startswith (s sub : text) : bool :=
  match sub, s with
  | [], _ => true
  | _ :: _, [] => false
  | a :: sub', b :: s' => if ascii_dec a b then startswith s' sub' else false
  end.

(** Scan of [str.rfind]: candidates [lo + n - 1], ..., [lo], highest
    first. *)
Fixpoint rfind_down (s sub : text) (lo n : nat) : Z :=
  match n with
  | O => -1
  | S k =>
      if startswith (drop (lo + k) s) sub then Z.of_nat (lo + k)
      else rfind_down s sub lo k
  end.

(** The index adjustment of the search methods (CPython's
    [ADJUST_INDICES]): negative indices count from the end, and the
    stop index is clamped to the length. *)
Definition find_stop (n stop : Z) : Z :=
  if stop >? n then n
  else if stop <? 0 then Z.max 0 (stop + n) else stop.

Definition find_start (n start : Z) : Z :=
  if start <? 0 then Z.max 0 (start + n) else start.

(** [s.rfind(sub, start, stop)]: the highest index [i] with
    [start <= i] and [i + len(sub) <= stop] (after the adjustment) at
    which [sub] occurs, or [-1]. *)
Definition rfind (s sub : text) (start stop : Z) : Z :=
  let hi := find_stop (len s) stop in
  let lo := find_start (len s) start in
  if hi - lo <? len sub then -1
  else rfind_down s sub (Z.to_nat lo) (Z.to_nat (hi - lo - len sub + 1)).

(** [s.lstrip()]. *)
Fixpoint lstrip (s : text) : text :=
  match s with
  | [] => []
  | c :: r => if isspace c then lstrip r else s
  end.

(** [s.rstrip()]: a character is dropped when it is whitespace and
    nothing survives to its right. *)
Fixpoint rstrip (s : text) : text :=
  match s with
  | [] => []
  | c :: r =>
      match rstrip r with
      | [] => if isspace c then [] else [c]
      | r' => c :: r'
      end
  end.

(** [s.strip()]. *)
Definition strip (s : text) : text := lstrip (rstrip s).

(** [re.sub(r"\s+", " ", s)]: every maximal run of whitespace becomes
    one space.  [in_run] tells that the previous character belonged
    to a run that has already been replaced. *)
Fixpoint re_sub_ws (in_run : bool) (s : text) : text :=
  match s with
  | [] => []
  | c :: r =>
      if isspace c then
        if in_run then re_sub_ws true r else " "%char :: re_sub_ws true r
      else c :: re_sub_ws false r
  end.

(** Truthiness of a [str] ([if s:], [not s]). *)
Definition truthy {A} (l : list A) : bool :=
  match l with [] => false | _ => true end.

(** [x or default] for an optional integer argument: [None] and [0]
    are falsy. *)
Definition int_or (x : option Z) (default : Z) : Z :=
  match x with
  | Some v => if v =? 0 then default else v
  | None => default
  end.

(** [max(a, b, c)]. *)
Definition max3 (a b c : Z) : Z := Z.max (Z.max a b) c.

End Py.

(* ================================================================== *)
(** ** app/config.py *)
(* ================================================================== *)
Module Config.

(** The fields of [Settings] the pipeline reads. *)
Record Settings := {
  MAX_CHUNK_SIZE : Z;
  CHUNK_OVERLAP : Z;
  TOP_K_RESULTS : Z;
  API_TIMEOUT : Z;
  MAX_RETRIES : Z
}.

(** The defaults of the class body. *)
Definition settings : Settings := {|
  MAX_CHUNK_SIZE := 512;
  CHUNK_OVERLAP := 50;
  TOP_K_RESULTS := 5;
  API_TIMEOUT := 30;
  MAX_RETRIES := 3
|}.

End Config.

(* ================================================================== *)
(** ** app/ingestion.py: chunk_text *)
(* ================================================================== *)
Module Ingestion.
Import Config.

(** The end of the window that starts at [start] (lines 152-169): the
    raw end [start + max_chunk_size], moved back to a sentence or word
    boundary when the window is not the last one. *)
Definition window_end (s : text) (max_chunk_size start : Z) : Z :=
  let end_ := start + max_chunk_size in
  if end_ <? len s then
    let sentence_end :=
      Py.max3 (Py.rfind s (txt ". ") start end_)
              (Py.rfind s (txt "! ") start end_)
              (Py.rfind s (txt "? ") start end_) in
    if sentence_end >? start then sentence_end + 1
    else
      let word_end := Py.rfind s (txt " ") start end_ in
      if word_end >? start then word_end else end_
  else end_.

(** One iteration of the [while] loop on the state
    [(start, chunks)] (lines 151-176). *)
Definition loop_body (s : text) (max_chunk_size overlap : Z)
    (st : Z * list text) : Z * list text :=
  let '(start, chunks) := st in
  let end_ := window_end s max_chunk_size start in
  let chunk := Py.strip (Py.slice s start end_) in
  let chunks := if Py.truthy chunk then chunks ++ [chunk] else chunks in
  let start := if end_ <? len s then end_ - overlap else end_ in
  (start, chunks).

(** [while start < len(text): ...].  The loop is not structurally
    recursive; [fuel] bounds the number of iterations and [None] means
    that the bound was reached before the loop condition failed. *)
Fixpoint while_loop (fuel : nat) (s : text) (max_chunk_size overlap : Z)
    (st : Z * list text) : option (list text) :=
  match fuel with
  | O => None
  | S fuel' =>
      if fst st <? len s
      then while_loop fuel' s max_chunk_size overlap
             (loop_body s max_chunk_size overlap st)
      else Some (snd st)
  end.

(** The text the loop works on (line 141). *)
Definition normalize (s : text) : text :=
  Py.strip (Py.re_sub_ws false s).

(** [chunk_text(text, max_chunk_size, overlap)]; an omitted argument
    is [None]. *)
Definition chunk_text (cfg : Settings) (fuel : nat) (s : text)
    (max_chunk_size overlap : option Z) : option (list text) :=
  let max_chunk_size := Py.int_or max_chunk_size (MAX_CHUNK_SIZE cfg) in
  let overlap := Py.int_or overlap (CHUNK_OVERLAP cfg) in
  if negb (Py.truthy s) || negb (Py.truthy (Py.strip s)) then Some []
  else
    let s := normalize s in
    if len s <=? max_chunk_size then Some [s]
    else while_loop fuel s max_chunk_size overlap (0, []).

(** The run of [chunk_text] returns [r]. *)
Definition chunk_text_returns (cfg : Settings) (s : text)
    (max_chunk_size overlap : option Z) (r : list text) : Prop :=
  exists fuel, chunk_text cfg fuel s max_chunk_size overlap = Some r.

(** *** Specification-side notions for the chunker *)

(** [s.split()]: the maximal runs of non-whitespace characters. *)
Fixpoint split_ws (s : text) : list text :=
  match s with
  | [] => []
  | c :: r =>
      if Py.isspace c then split_ws r
      else
        match r with
        | [] => [[c]]
        | c' :: _ =>
            if Py.isspace c' then [c] :: split_ws r
            else
              match split_ws r with
              | w :: ws => (c :: w) :: ws
              | [] => [[c]]
              end
        end
  end.

(** [" ".join(words)]. *)
Fixpoint join_space (words : list text) : text :=
  match words with
  | [] => []
  | [w] => w
  | w :: ws => w ++ " "%char :: join_space ws
  end.

(** The whitespace-normalized form in the words of the specification:
    all runs of whitespace collapsed to a single space, leading and
    trailing whitespace trimmed. *)
Definition whitespace_normalized_form (s : text) : text :=
  join_space (split_ws s).

(** Empty or whitespace-only input. *)
Definition is_blank (s : text) : bool := forallb Py.isspace s.

(** What a chunk of a long text looks like: not empty and at most
    [max_chunk_size] characters. *)
Definition good_chunk (max_chunk_size : Z) (c : text) : Prop :=
  c <> [] /\ len c <= max_chunk_size.

(** The scan advances at every window position: whenever the window
    starting at [start] is not the last one, its end lies more than
    [overlap] characters after [start]. *)
Definition advances_everywhere (s : text) (max_chunk_size overlap : Z) : bool :=
  forallb
    (fun i =>
       let start := Z.of_nat i in
       let end_ := window_end s max_chunk_size start in
       negb (end_ <? len s) || (start + overlap <? end_))
    (seq 0 (length s)).

End Ingestion.


(* ================================================================== *)
(** ** hashlib.md5 (RFC 1321) and generate_chunk_id *)
(* ================================================================== *)
Module Hashlib.
Local Open Scope N_scope.

(** 32-bit words are numbers below [2^32]; bytes are numbers below 256. *)
Definition mask32 (x : N) : N := N.land x 0xffffffff.
Definition add32 (x y : N) : N := mask32 (x + y).
Definition not32 (x : N) : N := N.lxor (mask32 x) 0xffffffff.
Definition rotl32 (x c : N) : N :=
  mask32 (N.lor (N.shiftl x c) (N.shiftr x (32 - c))).

(** The per-round shift amounts. *)
Definition md5_s : list N :=
  [ 7; 12; 17; 22; 7; 12; 17; 22; 7; 12; 17; 22; 7; 12; 17; 22;
    5; 9; 14; 20; 5; 9; 14; 20; 5; 9; 14; 20; 5; 9; 14; 20;
    4; 11; 16; 23; 4; 11; 16; 23; 4; 11; 16; 23; 4; 11; 16; 23;
    6; 10; 15; 21; 6; 10; 15; 21; 6; 10; 15; 21; 6; 10; 15; 21 ].

(** [floor(2^32 * abs(sin(i + 1)))]. *)
Definition md5_K : list N :=
  [ 0xd76aa478; 0xe8c7b756; 0x242070db; 0xc1bdceee;
    0xf57c0faf; 0x4787c62a; 0xa8304613; 0xfd469501;
    0x698098d8; 0x8b44f7af; 0xffff5bb1; 0x895cd7be;
    0x6b901122; 0xfd987193; 0xa679438e; 0x49b40821;
    0xf61e2562; 0xc040b340; 0x265e5a51; 0xe9b6c7aa;
    0xd62f105d; 0x02441453; 0xd8a1e681; 0xe7d3fbc8;
    0x21e1cde6; 0xc33707d6; 0xf4d50d87; 0x455a14ed;
    0xa9e3e905; 0xfcefa3f8; 0x676f02d9; 0x8d2a4c8a;
    0xfffa3942; 0x8771f681; 0x6d9d6122; 0xfde5380c;
    0xa4beea44; 0x4bdecfa9; 0xf6bb4b60; 0xbebfbc70;
    0x289b7ec6; 0xeaa127fa; 0xd4ef3085; 0x04881d05;
    0xd9d4d039; 0xe6db99e5; 0x1fa27cf8; 0xc4ac5665;
    0xf4292244; 0x432aff97; 0xab9423a7; 0xfc93a039;
    0x655b59c3; 0x8f0ccc92; 0xffeff47d; 0x85845dd1;
    0x6fa87e4f; 0xfe2ce6e0; 0xa3014314; 0x4e0811a1;
    0xf7537e82; 0xbd3af235; 0x2ad7d2bb; 0xeb86d391 ].

(** The [n] low bytes of [x], least significant first. *)
Fixpoint le_bytes (n : nat) (x : N) : list N :=
  match n with
  | O => []
  | S k => x mod 256 :: le_bytes k (x / 256)
  end.

(** The number whose little-endian bytes are [bs]. *)
Fixpoint of_le_bytes (bs : list N) : N :=
  match bs with
  | [] => 0
  | b :: r => b + 256 * of_le_bytes r
  end.

(** Padding: one [0x80] byte, zero bytes up to 56 modulo 64, and the
    length of the message in bits on 8 bytes. *)
Definition md5_pad (msg : list N) : list N :=
  let l := N.of_nat (length msg) in
  let zeros := (119 - l mod 64) mod 64 in
  msg ++ [0x80] ++ replicate (N.to_nat zeros) 0 ++ le_bytes 8 (8 * l).

(** The sixteen words of a 64-byte block. *)
Fixpoint words_of_block (n : nat) (block : list N) : list N :=
  match n with
  | O => []
  | S k => of_le_bytes (take 4 block) :: words_of_block k (drop 4 block)
  end.

Definition md5_state : Type := N * N * N * N.

Definition md5_step (M : list N) (st : md5_state) (i : nat) : md5_state :=
  let '(A, B, C, D) := st in
  let j := N.of_nat i in
  let '(F, g) :=
    if j <? 16 then (N.lor (N.land B C) (N.land (not32 B) D), j)
    else if j <? 32 then
      (N.lor (N.land D B) (N.land (not32 D) C), (5 * j + 1) mod 16)
    else if j <? 48 then (N.lxor (N.lxor B C) D, (3 * j + 5) mod 16)
    else (N.lxor C (N.lor B (not32 D)), (7 * j) mod 16) in
  let F := add32 (add32 (add32 F A) (nth i md5_K 0)) (nth (N.to_nat g) M 0) in
  (D, add32 B (rotl32 F (nth i md5_s 0)), B, C).

Definition md5_block (st : md5_state) (block : list N) : md5_state :=
  let '(a0, b0, c0, d0) := st in
  let '(A, B, C, D) := foldl (md5_step (words_of_block 16 block)) st (seq 0 64) in
  (add32 a0 A, add32 b0 B, add32 c0 C, add32 d0 D).

Fixpoint md5_blocks (n : nat) (st : md5_state) (bytes : list N) : md5_state :=
  match n with
  | O => st
  | S k => md5_blocks k (md5_block st (take 64 bytes)) (drop 64 bytes)
  end.

(** [hashlib.md5(data).digest()]. *)
Definition md5 (data : list N) : list N :=
  let padded := md5_pad data in
  let '(a, b, c, d) :=
    md5_blocks (length padded / 64)%nat
      (0x67452301, 0xefcdab89, 0x98badcfe, 0x10325476) padded in
  le_bytes 4 a ++ le_bytes 4 b ++ le_bytes 4 c ++ le_bytes 4 d.

Definition hex_digit (n : N) : ascii :=
  nth (N.to_nat n) (txt "0123456789abcdef") "0"%char.

(** [.hexdigest()]. *)
Definition hexdigest (digest : list N) : text :=
  flat_map (fun b => [hex_digit (b / 16); hex_digit (b mod 16)]) digest.

(** [str.encode()] (UTF-8) for code points below 256. *)
Definition encode (s : text) : list N :=
  flat_map (fun c =>
    let n := N_of_ascii c in
    if n <? 128 then [n] else [192 + n / 64; 128 + n mod 64]) s.

End Hashlib.

Module ChunkId.

(** [str(i)] for an integer. *)
Definition str_of_int (i : Z) : text :=
  txt (DecimalString.NilZero.string_of_int (Z.to_int i)).

(** [generate_chunk_id(file_path, chunk_index)] of [app/ingestion.py]:
    the MD5 hex digest of ["{file_path}:{chunk_index}"]. *)
Definition generate_chunk_id (file_path : string) (chunk_index : Z) : string :=
  let content := txt file_path ++ txt ":" ++ str_of_int chunk_index in
  String.string_of_list_ascii
    (Hashlib.hexdigest (Hashlib.md5 (Hashlib.encode content))).

End ChunkId.

(* ================================================================== *)
(** ** Data model, exceptions and the outside world *)
(* ================================================================== *)
Module Model.

(** Metadata values. *)
Inductive value :=
| VStr (s : string)
| VInt (i : Z).

Global Instance value_eq_dec : EqDecision value.
Proof. solve_decision. Defined.

(** Embedding vectors and similarity scores.  Their components are
    opaque to the pipeline, which only stores, forwards and orders
    them; they are modelled as integers. *)
Abbreviation embedding := (list Z).

(** The record written by [upsert_document]. *)
Record IndexedDocument := {
  doc_id : string;
  doc_text : text;
  doc_embedding : embedding;
  doc_metadata : gmap string value;
  created_at : Z
}.

(** A document as it flows through an aggregation pipeline and as
    [retrieve] returns it: a dictionary whose keys may be absent. *)
Record document := {
  _id : option string;
  text_ : option text;
  embedding_ : option embedding;
  metadata : option (gmap string value);
  created_at_ : option Z;
  score : option Z
}.

(** [doc.get(key, default)]. *)
Definition get {A} (field : option A) (default : A) : A :=
  match field with Some v => v | None => default end.

(** The fields a [$match] stage can test. *)
Inductive field :=
| FieldId
| FieldText
| FieldMetadata (key : string).

(** Filter criteria: a dictionary from field paths to required values. *)
Abbreviation criteria := (list (field * value)).

(** The stages [mongo_knn_search] uses. *)
Inductive stage :=
| VectorSearch (queryVector : embedding) (numCandidates limit : Z)
| Match (filter : criteria)
| Project
| Limit (n : Z).

(** Exceptions.  A class is identified by its name; [bases] lists the
    names of its proper ancestors below [Exception].  Only subclasses
    of [Exception] are modelled.  [RetryError] is the exception of
    [tenacity], which carries the last failed attempt. *)
Inductive exception :=
| Exc (cls : string) (bases : list string) (msg : string)
| RetryError (last_attempt : exception).

Definition RateLimitError : string := "RateLimitError".
Definition APIError : string := "APIError".
Definition Timeout : string := "Timeout".

Definition ValueError (msg : string) : exception := Exc "ValueError" [] msg.
Definition FileNotFoundError (msg : string) : exception :=
  Exc "FileNotFoundError" ["OSError"] msg.

(** [isinstance(e, classes)] for a tuple of class names. *)
Definition isinstance (e : exception) (classes : list string) : bool :=
  match e with
  | Exc cls bases _ =>
      existsb (fun c => bool_decide (c = cls) || bool_decide (c ∈ bases)
                        || bool_decide (c = "Exception")) classes
  | RetryError _ =>
      existsb (fun c => bool_decide (c = "RetryError")
                        || bool_decide (c = "Exception")) classes
  end.

(** The outcome of a call: a value or a raised exception. *)
Inductive result (A : Type) :=
| Ok (a : A)
| Raise (e : exception).
Arguments Ok {A} a.
Arguments Raise {A} e.

(** What the process does to the outside, in order. *)
Inductive event :=
| EmbeddingsCreate (input : text)
| ChatCompletionsCreate (prompt : text)
| Sleep (seconds : Z)
| ReplaceOne (id : string)
| Aggregate (pipeline : list stage).

Definition is_embedding_call (e : event) : bool :=
  match e with EmbeddingsCreate _ => true | _ => false end.
Definition is_llm_call (e : event) : bool :=
  match e with ChatCompletionsCreate _ => true | _ => false end.
Definition is_mongo_call (e : event) : bool :=
  match e with ReplaceOne _ | Aggregate _ => true | _ => false end.

(** The state the pipeline acts on: the MongoDB collection, the calls
    made so far, and a clock that [time.sleep] advances. *)
Record world := {
  collection : gmap string IndexedDocument;
  trace : list event;
  clock : Z
}.

Definition embedding_calls (w : world) : nat :=
  length (filter (fun e => is_embedding_call e = true) (trace w)).
Definition llm_calls (w : world) : nat :=
  length (filter (fun e => is_llm_call e = true) (trace w)).
Definition mongo_calls (w : world) : nat :=
  length (filter (fun e => is_mongo_call e = true) (trace w)).

Definition record_event (e : event) (w : world) : world :=
  {| collection := collection w; trace := trace w ++ [e]; clock := clock w |}.

(** The tokenizer behind [calculate_token_count] and [truncate_text]:
    [tiktoken] when it can be imported, otherwise the fallback of the
    [except] branches. *)
Inductive tokenizer :=
| Tiktoken (encode : text -> list nat) (decode : list nat -> text)
| Unavailable.

(** The collaborators of the pipeline.  Remote services answer their
    [k]-th request as the corresponding function says. *)
Record env := {
  cfg : Config.Settings;
  tiktoken : tokenizer;
  embeddings_create : nat -> text -> result embedding;
  chat_completions_create : nat -> text -> result text;
  mongo_fault : nat -> option exception;
  similarity : embedding -> embedding -> Z;
  path_exists : string -> bool;
  path_is_file : string -> bool;
  path_suffix : string -> string;
  extract_text : string -> result text;
  glob : string -> bool -> list string
}.

(** Computations: they read and change the world, return or raise,
    and yield [None] when a loop runs out of fuel. *)
Definition M (A : Type) : Type := world -> option (result A * world).

Definition ret {A} (a : A) : M A := fun w => Some (Ok a, w).
Definition raise {A} (e : exception) : M A := fun w => Some (Raise e, w).
Definition bind {A B} (m : M A) (k : A -> M B) : M B :=
  fun w =>
    match m w with
    | None => None
    | Some (Ok a, w') => k a w'
    | Some (Raise e, w') => Some (Raise e, w')
    end.

(** [try: m except Exception as e: handler(e)]. *)
Definition try_except {A} (m : M A) (handler : exception -> M A) : M A :=
  fun w =>
    match m w with
    | Some (Raise e, w') => handler e w'
    | r => r
    end.

(** [time.time()]. *)
Definition time_time : M Z := fun w => Some (Ok (clock w), w).

(** [time.sleep(seconds)]. *)
Definition time_sleep (seconds : Z) : M unit :=
  fun w =>
    Some (Ok tt, {| collection := collection w;
                    trace := trace w ++ [Sleep seconds];
                    clock := clock w + seconds |}).

End Model.

Declare Scope py_scope.
Delimit Scope py_scope with py.
Notation "'let*' x := m 'in' k" := (Model.bind m (fun x => k))
  (at level 10, x name, m at level 100, k at level 200) : py_scope.

(* ================================================================== *)
(** ** tenacity: retry, stop and wait policies *)
(* ================================================================== *)
Module Tenacity.
Import Model.

(** [retry_if_exception_type(classes)]. *)
Definition retry_if_exception_type (classes : list string) (e : exception) : bool :=
  isinstance e classes.

(** [stop_after_attempt(max_attempt_number)]. *)
Definition stop_after_attempt (max_attempt_number attempt_number : Z) : bool :=
  attempt_number >=? max_attempt_number.

(** [wait_exponential(multiplier, min, max)]. *)
Definition wait_exponential (multiplier min max attempt_number : Z) : Z :=
  Z.max (Z.max 0 min) (Z.min (multiplier * 2 ^ (attempt_number - 1)) max).

(** The loop of [Retrying.__call__]: attempt, and on a failure that
    the [retry] predicate accepts either give up with [RetryError]
    (when [stop] says so) or sleep and attempt again.  A failure the
    predicate rejects is re-raised as it is. *)
Fixpoint retrying {A} (fuel : nat) (retry : exception -> bool)
    (stop : Z -> bool) (wait : Z -> Z) (fn : M A) (attempt_number : Z) : M A :=
  fun w =>
    match fuel with
    | O => None
    | S fuel' =>
        match fn w with
        | None => None
        | Some (Ok v, w') => Some (Ok v, w')
        | Some (Raise e, w') =>
            if retry e then
              if stop attempt_number then Some (Raise (RetryError e), w')
              else
                match time_sleep (wait attempt_number) w' with
                | Some (_, w'') =>
                    retrying fuel' retry stop wait fn (attempt_number + 1) w''
                | None => None
                end
            else Some (Raise e, w')
        end
    end.

(** A function decorated with [@retry(...)]: attempts are numbered
    from 1. *)
Definition retry {A} (fuel : nat) (retry_on : exception -> bool)
    (stop : Z -> bool) (wait : Z -> Z) (fn : M A) : M A :=
  retrying fuel retry_on stop wait fn 1.

End Tenacity.

(* ================================================================== *)
(** ** app/utils.py *)
(* ================================================================== *)
Module Utils.
Import Model.

(** [calculate_token_count(text)]. *)
Definition calculate_token_count (tk : tokenizer) (s : text) : Z :=
  match tk with
  | Tiktoken encode _ => len (encode s)
  | Unavailable => len s / 4
  end.

(** [truncate_text(text, max_tokens)]. *)
Definition truncate_text (tk : tokenizer) (s : text) (max_tokens : Z) : text :=
  match tk with
  | Tiktoken encode decode =>
      let tokens := encode s in
      if len tokens <=? max_tokens then s
      else decode (Py.slice_to tokens max_tokens)
  | Unavailable => Py.slice_to s (max_tokens * 4)
  end.

End Utils.

(* ================================================================== *)
(** ** app/embeddings.py *)
(* ================================================================== *)
Module Embeddings.
Import Model Config.

Section WithEnv.
Variable E : env.

(** [self.client.embeddings.create(input=text, ...)]: one remote call. *)
Definition embeddings_create_call (s : text) : M embedding :=
  fun w =>
    Some (embeddings_create E (embedding_calls w) s,
          record_event (EmbeddingsCreate s) w).

(** [EmbeddingClient._call_embedding_api], with its decorator. *)
Definition _call_embedding_api (fuel : nat) (s : text) : M embedding :=
  Tenacity.retry fuel
    (Tenacity.retry_if_exception_type [RateLimitError; APIError])
    (Tenacity.stop_after_attempt (MAX_RETRIES (cfg E)))
    (Tenacity.wait_exponential 1 2 10)
    (embeddings_create_call s).

(** [EmbeddingClient.get_embedding]. *)
Definition get_embedding (fuel : nat) (s : text) : M embedding :=
  if negb (Py.truthy s) || negb (Py.truthy (Py.strip s)) then
    raise (ValueError "Cannot generate embedding for empty text")
  else _call_embedding_api fuel s.

End WithEnv.
End Embeddings.

(* ================================================================== *)
(** ** app/db.py *)
(* ================================================================== *)
Module Db.
Import Model Config.

(** The value a document has at a field, if any. *)
Definition field_value (d : document) (f : field) : option value :=
  match f with
  | FieldId => VStr <$> _id d
  | FieldText => (fun s => VStr (String.string_of_list_ascii s)) <$> text_ d
  | FieldMetadata key => metadata d ≫= (fun m => m !! key)
  end.

(** [$match]: every pair of the criteria holds of the document. *)
Definition matches (filter : criteria) (d : document) : bool :=
  forallb (fun '(f, v) => bool_decide (field_value d f = Some v)) filter.

(** A stored record as a pipeline document. *)
Definition document_of (r : IndexedDocument) : document := {|
  _id := Some (doc_id r);
  text_ := Some (doc_text r);
  embedding_ := Some (doc_embedding r);
  metadata := Some (doc_metadata r);
  created_at_ := Some (created_at r);
  score := None
|}.

(** Pipeline rows: the document and its search score ([$meta]). *)
Abbreviation row := (document * Z)%type.

(** Ranking of rows: higher scores first. *)
Definition best_first (a b : row) : Prop := snd b <= snd a.

Global Instance best_first_dec a b : Decision (best_first a b).
Proof. unfold best_first. apply _. Defined.

(** [$vectorSearch]: the [limit] best of the [numCandidates] nearest
    records, by descending similarity to the query vector. *)
Definition vector_search (sim : embedding -> embedding -> Z)
    (coll : gmap string IndexedDocument)
    (queryVector : embedding) (numCandidates limit : Z) : list row :=
  let scored :=
    (fun '(_, r) => (document_of r, sim queryVector (doc_embedding r)))
      <$> map_to_list coll in
  let ranked := merge_sort best_first scored in
  take (Z.to_nat limit) (take (Z.to_nat numCandidates) ranked).

(** [$project] with [_id], [text], [metadata] and the search score. *)
Definition project (r : row) : row :=
  ({| _id := _id (fst r);
      text_ := text_ (fst r);
      embedding_ := None;
      metadata := metadata (fst r);
      created_at_ := None;
      score := Some (snd r) |}, snd r).

(** One stage on the rows that reach it.  [$vectorSearch] reads the
    collection. *)
Definition run_stage (sim : embedding -> embedding -> Z)
    (coll : gmap string IndexedDocument) (rows : list row) (st : stage)
    : list row :=
  match st with
  | VectorSearch q numCandidates limit =>
      vector_search sim coll q numCandidates limit
  | Match filter => List.filter (fun r => matches filter (fst r)) rows
  | Project => project <$> rows
  | Limit n => take (Z.to_nat n) rows
  end.

(** [collection.aggregate(pipeline)]. *)
Definition aggregate (sim : embedding -> embedding -> Z)
    (coll : gmap string IndexedDocument) (pipeline : list stage)
    : list document :=
  fst <$> foldl (run_stage sim coll) [] pipeline.

(** [l.insert(i, x)] for [0 <= i]. *)
Definition list_insert_at {A} (i : nat) (x : A) (l : list A) : list A :=
  take i l ++ x :: drop i l.

Section WithEnv.
Variable E : env.

(** [MongoDBClient.upsert_document]: replace-by-id with upsert. *)
Definition upsert_document (doc_id : string) (s : text)
    (emb : embedding) (meta : option (gmap string value)) : M string :=
  fun w =>
    let document := {|
      Model.doc_id := doc_id;
      doc_text := s;
      doc_embedding := emb;
      doc_metadata := get meta ∅;
      created_at := clock w
    |} in
    match mongo_fault E (mongo_calls w) with
    | Some e => Some (Raise e, record_event (ReplaceOne doc_id) w)
    | None =>
        Some (Ok doc_id,
              {| collection := <[doc_id := document]> (collection w);
                 trace := trace w ++ [ReplaceOne doc_id];
                 clock := clock w |})
    end.

(** The pipeline [mongo_knn_search] builds (lines 134-161). *)
Definition knn_pipeline (query_embedding : embedding) (top_k : Z)
    (filter_criteria : option criteria) : list stage :=
  let pipeline :=
    [VectorSearch query_embedding 50 top_k; Project; Limit top_k] in
  if Py.truthy (get filter_criteria []) then
    list_insert_at 1 (Match (get filter_criteria [])) pipeline
  else pipeline.

(** [MongoDBClient.mongo_knn_search]. *)
Definition mongo_knn_search (query_embedding : embedding) (top_k : Z)
    (filter_criteria : option criteria) : M (list document) :=
  fun w =>
    let pipeline := knn_pipeline query_embedding top_k filter_criteria in
    let w' := record_event (Aggregate pipeline) w in
    match mongo_fault E (mongo_calls w) with
    | Some e => Some (Raise e, w')
    | None => Some (Ok (aggregate (similarity E) (collection w) pipeline), w')
    end.

End WithEnv.

(** The search the specification describes: restrict the candidates to
    the records that match the filter, then rank and truncate. *)
Definition prefiltered_search (sim : embedding -> embedding -> Z)
    (coll : gmap string IndexedDocument) (query_embedding : embedding)
    (top_k : Z) (filter : criteria) : list document :=
  aggregate sim
    (base.filter (fun kr => matches filter (document_of (snd kr)) = true) coll)
    [VectorSearch query_embedding 50 top_k; Project; Limit top_k].

End Db.

(* ================================================================== *)
(** ** app/ingestion.py: ingest_file and ingest_directory *)
(* ================================================================== *)
Module IngestionPipeline.
Import Model Config.

Definition supported_extensions : list string :=
  [".txt"; ".md"; ".markdown"; ".pdf"].

Section WithEnv.
Variable E : env.

(** [parse_file]: dispatch on the lower-cased suffix; the parsers
    themselves are the text extractor of the environment. *)
Definition parse_file (file_path : string) : M text :=
  let ext := path_suffix E file_path in
  if bool_decide (ext ∈ supported_extensions) then
    fun w => Some (extract_text E file_path, w)
  else raise (ValueError (String.append "Unsupported file type: " ext)).

(** The metadata of chunk [i]: keys of the caller win on collision. *)
Definition chunk_metadata (file_path : string) (i total : Z)
    (meta : option (gmap string value)) : gmap string value :=
  get meta ∅ ∪
  <["source_file" := VStr file_path]>
    (<["chunk_index" := VInt i]> {["total_chunks" := VInt total]}).

(** The loop [for i, chunk in enumerate(chunks)] (lines 260-282). *)
Fixpoint ingest_chunks (fuel : nat) (file_path : string)
    (meta : option (gmap string value)) (total i : Z)
    (chunks : list text) (chunk_ids : list string) : M (list string) :=
  match chunks with
  | [] => ret chunk_ids
  | chunk :: rest =>
      (let chunk_id := ChunkId.generate_chunk_id file_path i in
       let* emb := Embeddings.get_embedding E fuel chunk in
       let* _ := Db.upsert_document E chunk_id chunk emb
                   (Some (chunk_metadata file_path i total meta)) in
       ingest_chunks fuel file_path meta total (i + 1) rest
         (chunk_ids ++ [chunk_id]))%py
  end.

(** [ingest_file(file_path, metadata)]. *)
Definition ingest_file (fuel : nat) (file_path : string)
    (meta : option (gmap string value)) : M (list string) :=
  if negb (path_exists E file_path) then
    raise (FileNotFoundError (String.append "File not found: " file_path))
  else
    (let* s := parse_file file_path in
     if negb (Py.truthy (Py.strip s)) then ret []
     else
       fun w =>
         match Ingestion.chunk_text (cfg E) fuel s None None with
         | None => None
         | Some chunks =>
             if negb (Py.truthy chunks) then ret [] w
             else ingest_chunks fuel file_path meta (len chunks) 0 chunks [] w
         end)%py.

(** The body of the loop over the files of a directory
    (lines 347-358): a failure of [ingest_file] is caught and the file
    is recorded with an empty list. *)
Definition ingest_one (fuel : nat) (meta : option (gmap string value))
    (file_path : string) (results : gmap string (list string))
    : M (gmap string (list string)) :=
  try_except
    (let* chunk_ids := ingest_file fuel file_path meta in
     ret (<[file_path := chunk_ids]> results))%py
    (fun _ => ret (<[file_path := []]> results)).

Fixpoint ingest_files (fuel : nat) (meta : option (gmap string value))
    (files : list string) (results : gmap string (list string))
    : M (gmap string (list string)) :=
  match files with
  | [] => ret results
  | file_path :: rest =>
      (let* results := ingest_one fuel meta file_path results in
       ingest_files fuel meta rest results)%py
  end.

(** [ingest_directory(directory_path, metadata, recursive)]. *)
Definition ingest_directory (fuel : nat) (directory_path : string)
    (meta : option (gmap string value)) (recursive : bool)
    : M (gmap string (list string)) :=
  if negb (path_exists E directory_path) then
    raise (FileNotFoundError
             (String.append "Directory not found: " directory_path))
  else
    let files :=
      List.filter
        (fun f => path_is_file E f
                  && bool_decide (path_suffix E f ∈ supported_extensions))
        (glob E directory_path recursive) in
    ingest_files fuel meta files ∅.

End WithEnv.
End IngestionPipeline.

(* ================================================================== *)
(** ** app/rag_engine.py *)
(* ================================================================== *)
Module RagEngine.
Import Model Config.

Definition newline : ascii := ascii_of_nat 10.

(** ["[Document {i}]\n{doc_text}"]. *)
Definition document_block (i : Z) (doc_text : text) : text :=
  txt "[Document " ++ ChunkId.str_of_int i ++ txt "]" ++ newline :: doc_text.

(** [sep.join(parts)]. *)
Fixpoint join (sep : text) (parts : list text) : text :=
  match parts with
  | [] => []
  | [p] => p
  | p :: rest => p ++ sep ++ join sep rest
  end.

(** The loop of [build_prompt] (lines 110-124) on the state
    [(context_parts, current_tokens)]; [i] is the number of the next
    document. *)
Fixpoint context_loop (tk : tokenizer) (max_context_tokens : Z)
    (retrieved_docs : list document) (i : Z)
    (context_parts : list text) (current_tokens : Z) : list text * Z :=
  match retrieved_docs with
  | [] => (context_parts, current_tokens)
  | doc :: rest =>
      let doc_text := get (text_ doc) [] in
      let doc_tokens := Utils.calculate_token_count tk doc_text in
      if current_tokens + doc_tokens >? max_context_tokens then
        let remaining_tokens := max_context_tokens - current_tokens in
        if remaining_tokens >? 100 then
          let doc_text := Utils.truncate_text tk doc_text remaining_tokens in
          context_loop tk max_context_tokens rest (i + 1)
            (context_parts ++ [document_block i doc_text])
            (current_tokens + doc_tokens)
        else (context_parts, current_tokens)
      else
        context_loop tk max_context_tokens rest (i + 1)
          (context_parts ++ [document_block i doc_text])
          (current_tokens + doc_tokens)
  end.

(** The [context] of [build_prompt] (line 126). *)
Definition build_context (tk : tokenizer) (retrieved_docs : list document)
    (max_context_tokens : Z) : text :=
  join [newline; newline]
    (fst (context_loop tk max_context_tokens retrieved_docs 1 [] 0)).

(** [RAGEngine.build_prompt]. *)
Definition build_prompt (tk : tokenizer) (query : text)
    (retrieved_docs : list document) (max_context_tokens : Z) : text :=
  txt "You are a helpful AI assistant. Answer the user's question based on the provided context documents. If the context doesn't contain enough information to answer the question, say so honestly."
  ++ [newline; newline] ++ txt "Context Documents:" ++ [newline]
  ++ build_context tk retrieved_docs max_context_tokens
  ++ [newline; newline] ++ txt "User Question: " ++ query
  ++ [newline; newline] ++ txt "Answer:".

(** One entry of [sources]. *)
Record source := {
  source_text : text;
  source_score : Z;
  source_metadata : gmap string value
}.

(** The dictionary [query] returns. *)
Record QueryResult := {
  answer : text;
  sources : list source;
  latency_ms : Z
}.

Definition not_found_answer : text :=
  txt "I couldn't find any relevant information to answer your question.".

Section WithEnv.
Variable E : env.

(** [RAGEngine.retrieve]. *)
Definition retrieve (fuel : nat) (query : text) (top_k : option Z)
    (filter_criteria : option criteria) : M (list document) :=
  let top_k := Py.int_or top_k (TOP_K_RESULTS (cfg E)) in
  (let* query_embedding := Embeddings.get_embedding E fuel query in
   Db.mongo_knn_search E query_embedding top_k filter_criteria)%py.

(** [self.llm_client.chat.completions.create(...)]: one remote call. *)
Definition chat_completions_call (prompt : text) : M text :=
  fun w =>
    Some (chat_completions_create E (llm_calls w) prompt,
          record_event (ChatCompletionsCreate prompt) w).

(** [RAGEngine._call_llm_api], with its decorator. *)
Definition _call_llm_api (fuel : nat) (prompt : text) : M text :=
  Tenacity.retry fuel
    (Tenacity.retry_if_exception_type [RateLimitError; APIError; Timeout])
    (Tenacity.stop_after_attempt (MAX_RETRIES (cfg E)))
    (Tenacity.wait_exponential 1 2 10)
    (chat_completions_call prompt).

(** [RAGEngine.call_llm]. *)
Definition call_llm (fuel : nat) (prompt : text) : M text :=
  _call_llm_api fuel prompt.

(** [RAGEngine.query]. *)
Definition query (fuel : nat) (question : text) (top_k : option Z)
    (filter_criteria : option criteria) : M QueryResult :=
  (let* start_time := time_time in
   let* retrieved_docs := retrieve fuel question top_k filter_criteria in
   if negb (Py.truthy retrieved_docs) then
     let* now := time_time in
     ret {| answer := not_found_answer;
            sources := [];
            latency_ms := (now - start_time) * 1000 |}
   else
     let prompt := build_prompt (tiktoken E) question retrieved_docs 3000 in
     let* answer := call_llm fuel prompt in
     let* now := time_time in
     ret {| answer := answer;
            sources :=
              (fun doc => {| source_text := get (text_ doc) [];
                             source_score := get (score doc) 0;
                             source_metadata := get (metadata doc) ∅ |})
                <$> retrieved_docs;
            latency_ms := (now - start_time) * 1000 |})%py.

End WithEnv.
End RagEngine.

(* ================================================================== *)
(** ** Specification-side notions for the pipelines *)
(* ================================================================== *)
Module Spec.
Import Model.

(** The blocks of the documents [texts], numbered from [i]. *)
Fixpoint number_blocks (i : Z) (texts : list text) : list text :=
  match texts with
  | [] => []
  | s :: rest => RagEngine.document_block i s :: number_blocks (i + 1) rest
  end.

(** The estimated token count of the document texts placed in the
    context. *)
Definition included_tokens (tk : tokenizer) (texts : list text) : Z :=
  foldr (fun s acc => Utils.calculate_token_count tk s + acc) 0 texts.

(** The texts the specification puts in the context, for the budget
    [remaining]: a document that fits is taken whole; one that does not
    fit is truncated to the remaining budget when more than 100 tokens
    remain, and ends the selection either way. *)
Fixpoint select_texts (tk : tokenizer) (remaining : Z)
    (docs : list document) : list text :=
  match docs with
  | [] => []
  | doc :: rest =>
      let doc_text := get (text_ doc) [] in
      let doc_tokens := Utils.calculate_token_count tk doc_text in
      if doc_tokens <=? remaining then
        doc_text :: select_texts tk (remaining - doc_tokens) rest
      else if remaining >? 100 then
        [Utils.truncate_text tk doc_text remaining]
      else []
  end.

(** Truncating to [n] tokens leaves a text that counts at most [n]
    tokens.  The fallback estimator has this property; for [tiktoken]
    it says that re-encoding a decoded prefix does not yield more
    tokens. *)
Definition truncation_sound (tk : tokenizer) : Prop :=
  forall s n, 0 <= n ->
    Utils.calculate_token_count tk (Utils.truncate_text tk s n) <= n.

(** The number of calls after the first one. *)
Definition retries (calls_before calls_after : nat) : Z :=
  Z.of_nat calls_after - Z.of_nat calls_before - 1.

(** The number of attempts the stop policy allows. *)
Definition attempt_ceiling (max_retries : Z) : nat :=
  Z.to_nat (Z.max 1 max_retries).

(** [sub in s]. *)
Fixpoint contains (s sub : text) : bool :=
  Py.startswith s sub ||
  match s with
  | [] => false
  | _ :: r => contains r sub
  end.

(** The chunk ids of [n] chunks of the file, numbered from [i]. *)
Fixpoint chunk_ids_from (file_path : string) (i : Z) (n : nat) : list string :=
  match n with
  | O => []
  | S k => ChunkId.generate_chunk_id file_path i
           :: chunk_ids_from file_path (i + 1) k
  end.

(** The chunks [ingest_file] stores for a file: none when the file
    cannot be read, is blank, or is not chunked within [fuel]. *)
Definition chunks_of_file (E : env) (fuel : nat) (file_path : string) : list text :=
  match extract_text E file_path with
  | Ok s =>
      if negb (Py.truthy (Py.strip s)) then []
      else match Ingestion.chunk_text (cfg E) fuel s None None with
           | Some chunks => chunks
           | None => []
           end
  | Raise _ => []
  end.

(** The file is readable, of a supported type, and empty or
    whitespace-only. *)
Definition blank_file (E : env) (file_path : string) : Prop :=
  path_exists E file_path = true /\
  path_suffix E file_path ∈ IngestionPipeline.supported_extensions /\
  exists s, extract_text E file_path = Ok s /\ Ingestion.is_blank s = true.

End Spec.

(* ================================================================== *)
(** ** Concrete inputs *)
(* ================================================================== *)
Module Examples.
Import Model.

(** The example of the specification, and a text under the default
    configuration. *)
Definition spec_example : text :=
  txt "Sentence one. Sentence two. Sentence three.".

Definition long_word_example : text :=
  txt "Hi. " ++ replicate 600 "a"%char.

(** The text of [test_chunk_text_sentence_boundary]. *)
Definition four_sentences : text :=
  txt "First sentence. Second sentence. Third sentence. Fourth sentence.".

(** The text of [test_chunk_text_whitespace_normalization]. *)
Definition short_example : text :=
  txt "This   has    irregular     spacing" ++ replicate 3 (ascii_of_nat 10)
  ++ txt "and newlines.".

(** A short text followed by whitespace. *)
Definition padded_example : text := txt "a" ++ replicate 20 " "%char.

Definition empty_world : world :=
  {| collection := ∅; trace := []; clock := 0 |}.

Definition rate_limit_error : exception :=
  Exc RateLimitError ["APIStatusError"; APIError; "OpenAIError"] "429".

(** An environment whose providers answer, over two text files. *)
Definition quiet_env : env := {|
  cfg := Config.settings;
  tiktoken := Unavailable;
  embeddings_create := fun _ s => Ok [len s];
  chat_completions_create := fun _ _ => Ok (txt "An answer.");
  mongo_fault := fun _ => None;
  similarity := fun q e => - Z.abs (hd 0 q - hd 0 e);
  path_exists := fun _ => true;
  path_is_file := fun _ => true;
  path_suffix := fun _ => ".txt";
  extract_text := fun p =>
    if bool_decide (p = "docs/blank.txt") then Ok (txt "   ")
    else Ok (txt "Vector search finds the nearest chunks.");
  glob := fun _ _ => ["docs/a.txt"; "docs/blank.txt"]
|}.

(** The same environment with providers that are rate limited on
    every request. *)
Definition rate_limited_env : env := {|
  cfg := Config.settings;
  tiktoken := Unavailable;
  embeddings_create := fun _ _ => Raise rate_limit_error;
  chat_completions_create := fun _ _ => Raise rate_limit_error;
  mongo_fault := fun _ => None;
  similarity := similarity quiet_env;
  path_exists := fun _ => true;
  path_is_file := fun _ => true;
  path_suffix := fun _ => ".txt";
  extract_text := extract_text quiet_env;
  glob := glob quiet_env
|}.


(** A question, and the world after retrieving for it from an empty
    collection. *)
Definition question : text := txt "What is X?".
Definition after_empty_search : world :=
  match RagEngine.retrieve quiet_env 3 question None None empty_world with
  | Some (_, w) => w
  | None => empty_world
  end.


(** The world after the rate-limited ingestion of one file. *)
Definition after_failed_file : world :=
  match IngestionPipeline.ingest_file rate_limited_env 3 "docs/a.txt" None
          empty_world with
  | Some (_, w) => w
  | None => empty_world
  end.

(** The world after the rate-limited batch over the two files. *)
Definition after_failed_batch : world :=
  match IngestionPipeline.ingest_files rate_limited_env 3 None
          ["docs/a.txt"; "docs/blank.txt"] ∅ empty_world with
  | Some (_, w) => w
  | None => empty_world
  end.

(** An error that is not among the retried classes. *)
Definition type_error : exception := Exc "TypeError" [] "bad argument".

(** The error of a malformed request, with the ancestors the [openai]
    package gives it. *)
Definition bad_request_error : exception :=
  Exc "BadRequestError" ["APIStatusError"; APIError; "OpenAIError"] "400".

(** Two stored records from different sources. *)
Definition record_a : IndexedDocument := {|
  doc_id := "a"; doc_text := txt "alpha"; doc_embedding := [10];
  doc_metadata := {["source" := VStr "a.txt"]}; created_at := 0
|}.
Definition record_b : IndexedDocument := {|
  doc_id := "b"; doc_text := txt "beta"; doc_embedding := [7];
  doc_metadata := {["source" := VStr "b.txt"]}; created_at := 0
|}.
Definition two_records : gmap string IndexedDocument :=
  <["a" := record_a]> {["b" := record_b]}.
Definition two_records_world : world :=
  {| collection := two_records; trace := []; clock := 0 |}.
Definition only_b : criteria := [(FieldMetadata "source", VStr "b.txt")].

(** A retrieved document with the given text. *)
Definition doc_with_text (s : text) : document := {|
  _id := None; text_ := Some s; embedding_ := None;
  metadata := None; created_at_ := None; score := None
|}.
Definition long_document : document := doc_with_text (replicate 1000 "x"%char).
Definition short_document : document := doc_with_text (txt "abcd").

End Examples.

(* ================================================================== *)
(** ** More of the package: batch embeddings and store reads *)
(* ================================================================== *)
Module Builtins.
Import Model.

(** [list(range(start, stop, step))]; a zero step raises
    [ValueError]. *)
Definition range (start stop step : Z) : result (list Z) :=
  if step =? 0 then Raise (ValueError "range() arg 3 must not be zero")
  else
    let count :=
      if 0 <? step then
        if start <? stop then (stop - start - 1) / step + 1 else 0
      else
        if stop <? start then (start - stop - 1) / (- step) + 1 else 0 in
    Ok ((fun j => start + Z.of_nat j * step) <$> seq 0 (Z.to_nat count)).

End Builtins.

Module EmbeddingsBatch.
Import Model.

Section WithBackend.
(** [self.client.embeddings.create(input=batch, ...)] for a list of
    texts: the answer of the backend to its [k]-th request, the list
    [response.data] of vectors. *)
Variable embeddings_create_batch : nat -> list text -> result (list embedding).

(** The loop of [get_embeddings_batch] (lines 147-156) over the start
    indices; the state is the list [embeddings] and the number of
    requests made. *)
Fixpoint batch_loop (texts : list text) (batch_size : Z) (starts : list Z)
    (embeddings : list embedding) (calls : nat)
    : result (list embedding) * nat :=
  match starts with
  | [] => (Ok embeddings, calls)
  | i :: rest =>
      let batch := Py.slice texts i (i + batch_size) in
      match embeddings_create_batch calls batch with
      | Ok data => batch_loop texts batch_size rest (embeddings ++ data) (S calls)
      | Raise e => (Raise e, S calls)
      end
  end.

(** [EmbeddingClient.get_embeddings_batch(texts, batch_size)], with the
    number of requests made so far as state. *)
Definition get_embeddings_batch (texts : list text) (batch_size : Z)
    (calls : nat) : result (list embedding) * nat :=
  if negb (Py.truthy texts) then (Ok [], calls)
  else
    match Builtins.range 0 (len texts) batch_size with
    | Raise e => (Raise e, calls)
    | Ok starts => batch_loop texts batch_size starts [] calls
    end.

End WithBackend.
End EmbeddingsBatch.

Module DbRead.
Import Model.

Section WithEnv.
Variable E : env.

(** [MongoDBClient.get_document]: [find_one] by id; a failure of the
    backend is turned into [None].  Reads leave no event in the
    trace. *)
Definition get_document (doc_id : string) : M (option IndexedDocument) :=
  fun w =>
    match mongo_fault E (mongo_calls w) with
    | Some _ => Some (Ok None, w)
    | None => Some (Ok (collection w !! doc_id), w)
    end.

(** [MongoDBClient.count_documents]: the number of records that match
    [filter_criteria or {}]; a failure of the backend is turned into
    [0]. *)
Definition count_documents (filter_criteria : option criteria) : M Z :=
  fun w =>
    match mongo_fault E (mongo_calls w) with
    | Some _ => Some (Ok 0, w)
    | None =>
        Some (Ok (Z.of_nat
                    (size (filter
                             (fun kr => Db.matches (get filter_criteria [])
                                          (Db.document_of (snd kr)) = true)
                             (collection w)))), w)
    end.

End WithEnv.
End DbRead.

(* ================================================================== *)
(** ** app/eval.py: calculate_precision_at_k *)
(* ================================================================== *)
Module Eval.
Import Model.

(** The float [calculate_precision_at_k] returns: the literal [0.0],
    or the quotient [relevant_count / k] of two integers, kept as the
    pair it is computed from. *)
Inductive precision :=
| Zero
| Quotient (relevant_count k : Z).

Definition ZeroDivisionError (msg : string) : exception :=
  Exc "ZeroDivisionError" ["ArithmeticError"] msg.

(** [calculate_precision_at_k(retrieved_ids, expected_ids, k)]. *)
Definition calculate_precision_at_k (retrieved_ids : list string)
    (expected_ids : gset string) (k : Z) : result precision :=
  if negb (Py.truthy retrieved_ids) || bool_decide (expected_ids = ∅) then
    Ok Zero
  else
    let top_k := Py.slice_to retrieved_ids k in
    let relevant_count :=
      len (filter (fun doc_id => doc_id ∈ expected_ids) top_k) in
    if k =? 0 then Raise (ZeroDivisionError "division by zero")
    else Ok (Quotient relevant_count k).

End Eval.

(* ================================================================== *)
(** ** More notions of the specification and concrete inputs *)
(* ================================================================== *)
Module SpecMore.
Import Model.

(** [sub] occurs in [s] as a contiguous piece. *)
Definition occurs_in (sub s : text) : Prop :=
  exists before after, s = before ++ sub ++ after.

(** A chunk as [chunk_text] emits it: not empty, without leading or
    trailing whitespace, and a contiguous piece of the text [s]. *)
Definition piece_of (s : text) (c : text) : Prop :=
  c <> [] /\ Py.strip c = c /\ occurs_in c s.

(** A word of [s.split()]: not empty and without whitespace. *)
Definition clean_word (w : text) : Prop :=
  w <> [] /\ Forall (fun c => Py.isspace c = false) w.

(** The lower-case hexadecimal digits. *)
Definition hex_digits : text := txt "0123456789abcdef".

(** The number of batches of size [batch_size] over [n] texts. *)
Definition batches (n : nat) (batch_size : Z) : nat :=
  Z.to_nat ((Z.of_nat n + batch_size - 1) / batch_size).


(** The document [mongo_knn_search] returns for a stored record. *)
Definition hit_of (sim : embedding -> embedding -> Z) (q : embedding)
    (r : IndexedDocument) : document :=
  fst (Db.project (Db.document_of r, sim q (doc_embedding r))).

(** The text of every retrieved document. *)
Definition texts_of (docs : list document) : list text :=
  (fun doc => get (text_ doc) []) <$> docs.

(** The entry of [sources] for a retrieved document. *)
Definition source_of (doc : document) : RagEngine.source :=
  {| RagEngine.source_text := get (text_ doc) [];
     RagEngine.source_score := get (score doc) 0;
     RagEngine.source_metadata := get (metadata doc) ∅ |}.

(** The first [j] requests from request [k] on fail with retried
    errors. *)
Definition fails_from {A} (answers : nat -> result A)
    (classes : list string) (k j : nat) : Prop :=
  forall i, (i < j)%nat ->
    exists e, answers (k + i)%nat = Raise e /\ isinstance e classes = true.

(** A precision score that lies between 0 and 1. *)
Definition in_unit_interval (p : Eval.precision) : Prop :=
  match p with
  | Eval.Zero => True
  | Eval.Quotient n k => 0 < k /\ 0 <= n <= k
  end.

End SpecMore.

Module MoreExamples.
Import Model Examples.

(** A backend that embeds every text by its length. *)
Definition length_backend (k : nat) (batch : list text)
    : result (list embedding) :=
  Ok ((fun s => [len s]) <$> batch).

Definition three_texts : list text := [txt "a"; txt "bb"; txt "ccc"].

(** An environment whose embedding provider is rate limited twice and
    then answers. *)
Definition recovering_env : env := {|
  cfg := Config.settings;
  tiktoken := Unavailable;
  embeddings_create := fun k s =>
    if (k <? 2)%nat then Raise rate_limit_error else Ok [len s];
  chat_completions_create := chat_completions_create quiet_env;
  mongo_fault := fun _ => None;
  similarity := similarity quiet_env;
  path_exists := fun p => bool_decide (p <> "missing.txt");
  path_is_file := fun _ => true;
  path_suffix := fun p =>
    if bool_decide (p = "notes.docx") then ".docx" else ".txt";
  extract_text := extract_text quiet_env;
  glob := glob quiet_env
|}.

End MoreExamples.

(* ================================================================== *)
(** * Properties *)
(* ================================================================== *)

Import Config Ingestion Model Spec Examples.

(** ** Facts about the Python built-ins *)

Lemma len_nonneg {A} (l : list A) : 0 <= len l.
Proof. unfold len. lia. Qed.

Lemma rstrip_cons c r :
  Py.rstrip (c :: r) =
  match Py.rstrip r with
  | [] => if Py.isspace c then [] else [c]
  | r' => c :: r'
  end.
Proof. reflexivity. Qed.

Lemma lstrip_cons c r :
  Py.lstrip (c :: r) = if Py.isspace c then Py.lstrip r else c :: r.
Proof. reflexivity. Qed.

Lemma rstrip_cons_keep c r :
  Py.isspace c = false -> Py.rstrip (c :: r) = c :: Py.rstrip r.
Proof. intros Hc. simpl. rewrite Hc. by destruct (Py.rstrip r). Qed.

Lemma rstrip_length s : (length (Py.rstrip s) <= length s)%nat.
Proof.
  induction s as [|c r IH]; simpl; [lia|].
  destruct (Py.rstrip r); [destruct (Py.isspace c)|]; simpl in *; lia.
Qed.

Lemma lstrip_length s : (length (Py.lstrip s) <= length s)%nat.
Proof.
  induction s as [|c r IH]; simpl; [lia|].
  destruct (Py.isspace c); simpl; lia.
Qed.

Lemma strip_length s : (length (Py.strip s) <= length s)%nat.
Proof.
  unfold Py.strip. etrans; [apply lstrip_length|apply rstrip_length].
Qed.

Lemma re_sub_ws_length b s : (length (Py.re_sub_ws b s) <= length s)%nat.
Proof.
  revert b. induction s as [|c r IH]; intros b; simpl; [lia|].
  destruct (Py.isspace c); [destruct b|]; simpl;
    first [specialize (IH true); lia | specialize (IH false); lia].
Qed.

Lemma normalize_length s : len (normalize s) <= len s.
Proof.
  unfold normalize, len.
  pose proof (strip_length (Py.re_sub_ws false s)).
  pose proof (re_sub_ws_length false s). lia.
Qed.

(** [lstrip] leaves a text that does not start with whitespace. *)
Lemma lstrip_head s c r : Py.lstrip s = c :: r -> Py.isspace c = false.
Proof.
  induction s as [|a s IH]; simpl; [done|].
  destruct (Py.isspace a) eqn:Ha; [done|]. by intros [= <- _].
Qed.

(** [lstrip] returns a suffix. *)
Lemma lstrip_suffix s : exists p, s = p ++ Py.lstrip s.
Proof.
  induction s as [|a s [p IH]]; simpl; [by exists []|].
  destruct (Py.isspace a); [|by exists []].
  exists (a :: p). simpl. by f_equal.
Qed.

(** [rstrip] leaves a text that does not end with whitespace. *)
Lemma rstrip_last s c : last (Py.rstrip s) = Some c -> Py.isspace c = false.
Proof.
  induction s as [|a s IH]; simpl; [done|].
  destruct (Py.rstrip s) as [|b r] eqn:E.
  - destruct (Py.isspace a) eqn:Ha; simpl; [done|]. by intros [= <-].
  - intros H. apply IH. by rewrite <- H.
Qed.

Lemma strip_head s c r : Py.strip s = c :: r -> Py.isspace c = false.
Proof. apply lstrip_head. Qed.

Lemma strip_last s c : last (Py.strip s) = Some c -> Py.isspace c = false.
Proof.
  unfold Py.strip. intros H.
  destruct (lstrip_suffix (Py.rstrip s)) as [p Hp].
  apply (rstrip_last s). rewrite Hp.
  destruct (Py.lstrip (Py.rstrip s)) as [|a l] eqn:E; [done|].
  rewrite last_app. by rewrite H.
Qed.

(** A text with a non-whitespace character does not strip to nothing. *)
Lemma rstrip_nonempty s c :
  c ∈ s -> Py.isspace c = false -> exists c', c' ∈ Py.rstrip s /\ Py.isspace c' = false.
Proof.
  intros Hin Hc. induction s as [|a s IH]; [by apply elem_of_nil in Hin|].
  apply elem_of_cons in Hin as [<-|Hin].
  - rewrite rstrip_cons_keep by done. exists c. split; [left|done].
  - destruct (IH Hin) as (c' & Hc' & Hs). exists c'. split; [|done].
    simpl. destruct (Py.rstrip s) as [|b r]; [by apply elem_of_nil in Hc'|].
    by right.
Qed.

Lemma lstrip_nonempty s c :
  c ∈ s -> Py.isspace c = false -> Py.lstrip s <> [].
Proof.
  intros Hin Hc. induction s as [|a s IH]; [by apply elem_of_nil in Hin|].
  simpl. destruct (Py.isspace a) eqn:Ha; [|done].
  apply elem_of_cons in Hin as [->|Hin]; [congruence|by apply IH].
Qed.

Lemma strip_nonempty s c :
  c ∈ s -> Py.isspace c = false -> Py.strip s <> [].
Proof.
  intros Hin Hc. destruct (rstrip_nonempty s c Hin Hc) as (c' & Hc' & Hs).
  unfold Py.strip. by eapply lstrip_nonempty.
Qed.

Lemma strip_blank s : Py.strip s = [] <-> is_blank s = true.
Proof.
  unfold is_blank. rewrite forallb_forall. split.
  - intros H c Hc%list_elem_of_In.
    destruct (Py.isspace c) eqn:E; [done|].
    by destruct (strip_nonempty s c Hc E).
  - intros H.
    assert (Hr : Py.rstrip s = []).
    { induction s as [|a s IH]; [done|].
      simpl. rewrite IH; [|intros c Hc; apply H; by right].
      rewrite (H a); [done|by left]. }
    unfold Py.strip. by rewrite Hr.
Qed.

(** ** Whitespace normalisation: the code against the specification *)

(** The first word of [s.split()] starts with a non-whitespace
    character. *)
Lemma split_ws_head s :
  match split_ws s with
  | [] => True
  | w :: _ => exists c w', w = c :: w' /\ Py.isspace c = false
  end.
Proof.
  induction s as [|c r IH]; simpl; [done|].
  destruct (Py.isspace c) eqn:Hc; [done|].
  destruct r as [|c' r']; [by eauto|].
  destruct (Py.isspace c'); [by eauto|].
  destruct (split_ws (c' :: r')); by eauto.
Qed.

Lemma split_ws_keep c r :
  Py.isspace c = false ->
  split_ws (c :: r) =
  match r with
  | [] => [[c]]
  | c' :: _ =>
      if Py.isspace c' then [c] :: split_ws r
      else match split_ws r with
           | w :: ws => (c :: w) :: ws
           | [] => [[c]]
           end
  end.
Proof. intros Hc. simpl. by rewrite Hc. Qed.

Lemma split_ws_cons_keep c' r :
  Py.isspace c' = false -> split_ws (c' :: r) <> [].
Proof.
  intros Hc. simpl. rewrite Hc. destruct r as [|d r']; [done|].
  destruct (Py.isspace d); [done|]. by destruct (split_ws (d :: r')).
Qed.

Lemma join_space_cons w ws :
  join_space (w :: ws) =
  w ++ match ws with [] => [] | _ => " "%char :: join_space ws end.
Proof. destruct ws; simpl; [by rewrite app_nil_r|done]. Qed.

Lemma join_space_head s :
  match join_space (split_ws s) with
  | [] => split_ws s = []
  | c :: _ => Py.isspace c = false
  end.
Proof.
  pose proof (split_ws_head s) as H.
  destruct (split_ws s) as [|w ws]; [done|].
  destruct H as (c & w' & -> & Hc). by rewrite join_space_cons.
Qed.

(** What [rstrip] leaves of the collapsed text, inside and outside a
    whitespace run. *)
Lemma rstrip_re_sub_ws s :
  Py.rstrip (Py.re_sub_ws true s) = join_space (split_ws s) /\
  Py.rstrip (Py.re_sub_ws false s) =
    match s with
    | [] => []
    | c :: _ =>
        if Py.isspace c then
          match split_ws s with
          | [] => []
          | _ => " "%char :: join_space (split_ws s)
          end
        else join_space (split_ws s)
    end.
Proof.
  induction s as [|c r [IH1 IH2]]; [done|].
  destruct (Py.isspace c) eqn:Hc.
  - simpl. rewrite Hc, IH1. split; [done|].
    rewrite rstrip_cons, IH1.
    pose proof (join_space_head r) as Hj.
    destruct (join_space (split_ws r)) as [|a l] eqn:E; [by rewrite Hj|].
    by destruct (split_ws r).
  - assert (Hgoal : Py.rstrip (c :: Py.re_sub_ws false r)
                    = join_space (split_ws (c :: r))).
    { rewrite rstrip_cons_keep by done. rewrite IH2.
      rewrite split_ws_keep by done.
      destruct r as [|c' r']; [done|].
      destruct (Py.isspace c') eqn:Hc'.
      - rewrite join_space_cons. apply (f_equal (cons c)).
        by destruct (split_ws (c' :: r')).
      - pose proof (split_ws_cons_keep c' r' Hc') as Hne.
        destruct (split_ws (c' :: r')) as [|w ws]; [done|].
        by rewrite !join_space_cons. }
    simpl Py.re_sub_ws. by rewrite Hc.
Qed.

(** The text [chunk_text] works on is the whitespace-normalized form of
    its input. *)
Lemma normalize_spec s : normalize s = whitespace_normalized_form s.
Proof.
  unfold normalize, whitespace_normalized_form, Py.strip.
  destruct (rstrip_re_sub_ws s) as [_ ->].
  pose proof (join_space_head s) as Hj.
  assert (Hl : Py.lstrip (join_space (split_ws s)) = join_space (split_ws s)).
  { destruct (join_space (split_ws s)) as [|a l]; [done|].
    by rewrite lstrip_cons, Hj. }
  destruct s as [|c r]; [done|].
  destruct (Py.isspace c) eqn:Hc; [|done].
  destruct (split_ws (c :: r)) as [|w ws] eqn:E; [done|].
  by rewrite lstrip_cons.
Qed.

Example normalize_example :
  normalize (txt "  This   has  irregular	spacing ") = txt "This has irregular spacing".
Proof. reflexivity. Qed.

(** ** The chunker: short inputs *)

(** C7 (amended).  A text no longer than [max_chunk_size] yields zero
    chunks when it is empty or whitespace-only, and otherwise exactly
    one chunk, equal to its whitespace-normalized form.  The [while]
    loop is never entered, so no fuel is needed. *)
Theorem chunk_text_short cfg fuel s max_chunk_size overlap :
  len s <= Py.int_or max_chunk_size (MAX_CHUNK_SIZE cfg) ->
  chunk_text cfg fuel s max_chunk_size overlap =
    Some (if is_blank s then [] else [whitespace_normalized_form s]).
Proof.
  intros Hlen. unfold chunk_text.
  destruct (is_blank s) eqn:Hb.
  - apply strip_blank in Hb. rewrite Hb. simpl.
    by rewrite orb_true_r.
  - assert (Hs : Py.strip s <> []).
    { intros H. apply strip_blank in H. congruence. }
    destruct s as [|c r]; [done|].
    destruct (Py.strip (c :: r)) as [|a l] eqn:E; [done|]. simpl orb. cbv iota.
    pose proof (normalize_length (c :: r)) as Hn.
    destruct (Z.leb_spec (len (normalize (c :: r)))
                (Py.int_or max_chunk_size (MAX_CHUNK_SIZE cfg))) as [_|?]; [|lia].
    by rewrite normalize_spec.
Qed.

Lemma chunk_text_short_witness :
  len short_example <= Py.int_or (Some 100) (MAX_CHUNK_SIZE settings) /\
  chunk_text settings 0 short_example (Some 100) (Some 10)
    = Some (if is_blank short_example then []
            else [whitespace_normalized_form short_example]).
Proof.
  assert (H : len short_example <= Py.int_or (Some 100) (MAX_CHUNK_SIZE settings))
    by (by vm_compute).
  split; [exact H|].
  exact (chunk_text_short settings 0 short_example (Some 100) (Some 10) H).
Defined.

(** The run of [test_chunk_text_whitespace_normalization]. *)
Example chunk_text_short_example :
  chunk_text settings 0 short_example (Some 100) (Some 10)
    = Some [txt "This has irregular spacing and newlines."].
Proof. by vm_compute. Qed.

(** C7, as stated, fails on whitespace-only input: the text is shorter
    than [max_chunk_size] and no chunk is returned. *)
Lemma chunk_text_blank_counterexample :
  len (txt "   ") <= 100 /\
  chunk_text settings 0 (txt "   ") (Some 100) (Some 10) = Some [].
Proof. split; [by vm_compute|reflexivity]. Qed.

(** ** The chunker: the scan *)

Lemma while_loop_step fuel s m o st :
  while_loop (S fuel) s m o st =
  if fst st <? len s then while_loop fuel s m o (loop_body s m o st)
  else Some (snd st).
Proof. reflexivity. Qed.

(** One more iteration does not help a run that never leaves the loop
    afterwards. *)
Lemma while_loop_continues s m o st :
  fst st < len s ->
  (forall fuel, while_loop fuel s m o (loop_body s m o st) = None) ->
  forall fuel, while_loop fuel s m o st = None.
Proof.
  intros Hlt Hnext [|fuel]; [done|].
  rewrite while_loop_step.
  destruct (Z.ltb_spec (fst st) (len s)); [apply Hnext|lia].
Qed.

(** A window whose end minus the overlap is the window's own start is
    scanned forever. *)
Lemma while_loop_stuck s m o start :
  start < len s ->
  window_end s m start < len s ->
  window_end s m start - o = start ->
  forall fuel chunks, while_loop fuel s m o (start, chunks) = None.
Proof.
  intros Hlt Hend Hfix fuel. induction fuel as [|fuel IH]; intros chunks; [done|].
  rewrite while_loop_step. simpl fst.
  destruct (Z.ltb_spec start (len s)); [|lia].
  unfold loop_body.
  destruct (Z.ltb_spec (window_end s m start) (len s)); [|lia].
  rewrite Hfix. apply IH.
Qed.

(** Closes an equation between closed terms by evaluation. *)
Ltac by_vm :=
  lazymatch goal with
  | |- @eq ?T _ ?r => vm_cast_no_check (@eq_refl T r)
  end.

(** Runs one iteration of the scan on a closed state. *)
Ltac scan_once :=
  apply while_loop_continues; [by vm_compute|];
  match goal with
  | |- context [loop_body ?s ?m ?o ?st] =>
      let r := eval vm_compute in (loop_body s m o st) in
      replace (loop_body s m o st) with r by (vm_compute; reflexivity)
  end.

Ltac scan_stuck :=
  intros fuel; apply while_loop_stuck; by vm_compute.

Lemma spec_example_loops :
  forall fuel, while_loop fuel spec_example 20 5 (0, []) = None.
Proof. scan_once. scan_once. scan_stuck. Qed.

Lemma long_word_example_loops :
  forall fuel, while_loop fuel long_word_example 512 50 (0, []) = None.
Proof. scan_once. scan_once. scan_stuck. Qed.

(** C2 (the code does not terminate).  On the example of the
    specification with [max_chunk_size = 20] and [overlap = 5], and on
    ["Hi. " + "a" * 600] under the default configuration (512 and 50),
    no number of iterations lets [chunk_text] return. *)
Theorem chunk_text_loops_forever :
  (forall fuel,
     chunk_text settings fuel spec_example (Some 20) (Some 5) = None) /\
  (forall fuel,
     chunk_text settings fuel long_word_example None None = None).
Proof.
  split; intros fuel.
  - change (chunk_text settings fuel spec_example (Some 20) (Some 5))
      with (while_loop fuel spec_example 20 5 (0, [])).
    apply spec_example_loops.
  - replace (chunk_text settings fuel long_word_example None None)
      with (while_loop fuel long_word_example 512 50 (0, [])).
    + apply long_word_example_loops.
    + unfold chunk_text.
      replace (normalize long_word_example) with long_word_example
        by (vm_compute; reflexivity).
      reflexivity.
Qed.

(** C3 (the code does not clamp).  After the chunk [text[22:27]] of the
    example of the specification the next window starts at [22] again,
    and after the chunk [text[0:3]] of the long-word example it starts
    at [-47], before the start of the chunk just emitted. *)
Theorem next_start_is_not_clamped :
  loop_body spec_example 20 5 (22, []) = (22, [txt "two."]) /\
  loop_body long_word_example 512 50 (0, []) = (-47, [txt "Hi."]).
Proof. split; vm_compute; reflexivity. Qed.

(** The part of C3 that the code does implement: a window that reaches
    the end of the text ends the scan, and no overlap is applied. *)
Lemma scan_stops_at_end fuel s m o start chunks :
  start < len s ->
  len s <= window_end s m start ->
  fst (loop_body s m o (start, chunks)) = window_end s m start /\
  while_loop (S (S fuel)) s m o (start, chunks) =
    Some (snd (loop_body s m o (start, chunks))).
Proof.
  intros Hlt Hend.
  assert (Hfst : fst (loop_body s m o (start, chunks)) = window_end s m start).
  { unfold loop_body. simpl.
    by destruct (Z.ltb_spec (window_end s m start) (len s)); [lia|]. }
  split; [done|].
  rewrite while_loop_step. simpl fst.
  destruct (Z.ltb_spec start (len s)); [|lia].
  rewrite while_loop_step, Hfst.
  by destruct (Z.ltb_spec (window_end s m start) (len s)); [lia|].
Qed.

(** ** Search and slicing *)

Lemma rfind_down_range s sub lo n :
  Py.rfind_down s sub lo n = -1 \/
  Z.of_nat lo <= Py.rfind_down s sub lo n < Z.of_nat lo + Z.of_nat n.
Proof.
  induction n as [|k IH]; simpl; [by left|].
  destruct (Py.startswith (drop (lo + k) s) sub); [right; lia|].
  destruct IH as [->|IH]; [by left|right; lia].
Qed.

Lemma rfind_range_adjusted s sub start stop :
  Py.rfind s sub start stop = -1 \/
  (Py.find_start (len s) start <= Py.rfind s sub start stop /\
   Py.rfind s sub start stop + len sub <= Py.find_stop (len s) stop).
Proof.
  unfold Py.rfind.
  assert (Hlo : 0 <= Py.find_start (len s) start).
  { unfold Py.find_start. destruct (Z.ltb_spec start 0); lia. }
  destruct (Z.ltb_spec (Py.find_stop (len s) stop - Py.find_start (len s) start)
              (len sub)); [by left|].
  destruct (rfind_down_range s sub (Z.to_nat (Py.find_start (len s) start))
              (Z.to_nat (Py.find_stop (len s) stop
                         - Py.find_start (len s) start - len sub + 1)))
    as [->|Hr]; [by left|right; lia].
Qed.

Lemma rfind_range s sub start stop :
  0 <= start -> 0 <= stop <= len s ->
  Py.rfind s sub start stop = -1 \/
  (start <= Py.rfind s sub start stop /\
   Py.rfind s sub start stop + len sub <= stop).
Proof.
  intros Hstart Hstop.
  pose proof (rfind_range_adjusted s sub start stop) as H.
  unfold Py.find_start, Py.find_stop in H.
  destruct (Z.gtb_spec stop (len s)); [lia|].
  destruct (Z.ltb_spec stop 0); [lia|].
  by destruct (Z.ltb_spec start 0); [lia|].
Qed.

(** The length of a slice, whatever the signs of its bounds. *)
Lemma slice_len {A} (l : list A) a b :
  len (Py.slice l a b)
  = Z.max 0 (Py.slice_index (len l) b - Py.slice_index (len l) a).
Proof.
  unfold Py.slice, len. rewrite length_take, length_drop.
  assert (0 <= Py.slice_index (Z.of_nat (length l)) a <= Z.of_nat (length l)).
  { unfold Py.slice_index. destruct (Z.ltb_spec a 0); lia. }
  assert (0 <= Py.slice_index (Z.of_nat (length l)) b <= Z.of_nat (length l)).
  { unfold Py.slice_index. destruct (Z.ltb_spec b 0); lia. }
  lia.
Qed.

(** A slice that starts before the end of a text and stops at or after
    it contains the last character. *)
Lemma slice_to_end {A} (l : list A) a b x :
  a < len l -> len l <= b -> last l = Some x -> x ∈ Py.slice l a b.
Proof.
  intros Ha Hb Hx. unfold Py.slice.
  assert (Hlen : (0 < length l)%nat).
  { destruct l; [done|simpl; lia]. }
  assert (Hlo : 0 <= Py.slice_index (len l) a < len l).
  { unfold Py.slice_index, len in *. destruct (Z.ltb_spec a 0); lia. }
  assert (Hhi : Py.slice_index (len l) b = len l).
  { unfold Py.slice_index, len in *. destruct (Z.ltb_spec b 0); lia. }
  rewrite Hhi. rewrite last_lookup in Hx.
  apply list_elem_of_lookup.
  exists (length l - 1 - Z.to_nat (Py.slice_index (len l) a))%nat.
  unfold len in *.
  rewrite lookup_take_lt by lia.
  rewrite lookup_drop. rewrite <- Hx. f_equal. lia.
Qed.

Lemma slice_nonneg {A} (l : list A) a b :
  0 <= a -> 0 <= b ->
  Py.slice l a b =
  take (Z.to_nat (Z.min b (len l) - Z.min a (len l)))
       (drop (Z.to_nat (Z.min a (len l))) l).
Proof.
  intros Ha Hb. unfold Py.slice, Py.slice_index.
  destruct (Z.ltb_spec a 0); [lia|]. by destruct (Z.ltb_spec b 0); [lia|].
Qed.

Lemma slice_length {A} (l : list A) a b :
  0 <= a <= b -> len (Py.slice l a b) <= b - a.
Proof.
  intros Hab. rewrite slice_nonneg by lia. unfold len.
  rewrite length_take. pose proof (len_nonneg l). unfold len in *. lia.
Qed.

Lemma slice_first {A} (l : list A) a b x :
  0 <= a < b -> l !! Z.to_nat a = Some x -> x ∈ Py.slice l a b.
Proof.
  intros Hab Hx. rewrite slice_nonneg by lia.
  pose proof (lookup_lt_Some _ _ _ Hx) as Hlt.
  apply list_elem_of_lookup. exists 0%nat.
  rewrite lookup_take_lt by (unfold len; lia).
  rewrite lookup_drop. rewrite <- Hx. f_equal. unfold len. lia.
Qed.

(** ** The window of the chunker *)

Lemma max3_cases a b c :
  Py.max3 a b c = a \/ Py.max3 a b c = b \/ Py.max3 a b c = c.
Proof. unfold Py.max3. lia. Qed.

(** A window that is not the last one ends after its start, at most
    [max_chunk_size] characters later. *)
Lemma window_end_inner s m start :
  0 <= start -> 0 < m -> start + m < len s ->
  start < window_end s m start <= start + m.
Proof.
  intros Hstart Hm Hlt. unfold window_end.
  destruct (Z.ltb_spec (start + m) (len s)); [|lia].
  pose proof (rfind_range s (txt ". ") start (start + m)) as H1.
  pose proof (rfind_range s (txt "! ") start (start + m)) as H2.
  pose proof (rfind_range s (txt "? ") start (start + m)) as H3.
  pose proof (rfind_range s (txt " ") start (start + m)) as H4.
  change (len (txt ". ")) with 2 in H1.
  change (len (txt "! ")) with 2 in H2.
  change (len (txt "? ")) with 2 in H3.
  change (len (txt " ")) with 1 in H4.
  destruct (Z.gtb_spec (Py.max3 (Py.rfind s (txt ". ") start (start + m))
                                (Py.rfind s (txt "! ") start (start + m))
                                (Py.rfind s (txt "? ") start (start + m)))
                       start) as [Hgt|Hle].
  - destruct (max3_cases (Py.rfind s (txt ". ") start (start + m))
                         (Py.rfind s (txt "! ") start (start + m))
                         (Py.rfind s (txt "? ") start (start + m)))
      as [E|[E|E]]; rewrite E in *; lia.
  - destruct (Z.gtb_spec (Py.rfind s (txt " ") start (start + m)) start); lia.
Qed.

(** The last window is not moved. *)
Lemma window_end_final s m start :
  len s <= start + m -> window_end s m start = start + m.
Proof.
  intros Hge. unfold window_end.
  by destruct (Z.ltb_spec (start + m) (len s)); [lia|].
Qed.

Lemma advances_everywhere_spec s m o start :
  advances_everywhere s m o = true ->
  0 <= start < len s ->
  window_end s m start < len s ->
  start + o < window_end s m start.
Proof.
  unfold advances_everywhere. rewrite forallb_forall.
  intros H Hstart Hend.
  specialize (H (Z.to_nat start)).
  rewrite Z2Nat.id in H by lia.
  destruct (Z.ltb_spec (window_end s m start) (len s)); [|lia].
  simpl in H.
  destruct (Z.ltb_spec (start + o) (window_end s m start)); [done|].
  discriminate H. apply in_seq. unfold len in *. lia.
Qed.

(** ** The chunker: long inputs *)

(** Splits on the comparisons of the index adjustments. *)
Ltac split_comparisons :=
  repeat match goal with
  | |- context [Z.ltb ?a ?b] => destruct (Z.ltb_spec a b)
  | |- context [Z.gtb ?a ?b] => destruct (Z.gtb_spec a b)
  | H : context [Z.ltb ?a ?b] |- _ => destruct (Z.ltb_spec a b)
  | H : context [Z.gtb ?a ?b] |- _ => destruct (Z.gtb_spec a b)
  end.

(** What the four searches of a window can return. *)
Lemma window_searches s start stop :
  let r1 := Py.rfind s (txt ". ") start stop in
  let r2 := Py.rfind s (txt "! ") start stop in
  let r3 := Py.rfind s (txt "? ") start stop in
  let r4 := Py.rfind s (txt " ") start stop in
  let r := Py.max3 r1 r2 r3 in
  (r = -1 \/ (Py.find_start (len s) start <= r /\
              r + 2 <= Py.find_stop (len s) stop)) /\
  (r4 = -1 \/ (Py.find_start (len s) start <= r4 /\
               r4 + 1 <= Py.find_stop (len s) stop)).
Proof.
  intros r1 r2 r3 r4 r.
  pose proof (rfind_range_adjusted s (txt ". ") start stop) as H1.
  pose proof (rfind_range_adjusted s (txt "! ") start stop) as H2.
  pose proof (rfind_range_adjusted s (txt "? ") start stop) as H3.
  pose proof (rfind_range_adjusted s (txt " ") start stop) as H4.
  change (len (txt ". ")) with 2 in H1.
  change (len (txt "! ")) with 2 in H2.
  change (len (txt "? ")) with 2 in H3.
  change (len (txt " ")) with 1 in H4.
  split; [|exact H4].
  destruct (max3_cases r1 r2 r3) as [E|[E|E]]; unfold r; rewrite E;
    assumption.
Qed.

(** A window is never cut to more than [max_chunk_size] characters,
    whatever the sign of its start. *)
Lemma window_slice_length s m start :
  0 < m -> start < len s ->
  len (Py.slice s start (window_end s m start)) <= m.
Proof.
  intros Hm Hstart. rewrite slice_len. unfold window_end.
  destruct (window_searches s start (start + m)) as [Hr Hr4].
  pose proof (len_nonneg s).
  destruct (Z.ltb_spec (start + m) (len s)).
  - destruct (Z.gtb_spec
                (Py.max3 (Py.rfind s (txt ". ") start (start + m))
                         (Py.rfind s (txt "! ") start (start + m))
                         (Py.rfind s (txt "? ") start (start + m))) start).
    + clear Hr4. unfold Py.slice_index, Py.find_start, Py.find_stop in *.
      split_comparisons; lia.
    + destruct (Z.gtb_spec (Py.rfind s (txt " ") start (start + m)) start);
        unfold Py.slice_index, Py.find_start, Py.find_stop in *;
        split_comparisons; lia.
  - unfold Py.slice_index. split_comparisons; lia.
Qed.

(** A window that is not the last one ends before the end of the
    text. *)
Lemma window_end_before_end s m start :
  0 < len s -> start + m < len s -> window_end s m start < len s.
Proof.
  intros Hlen Hin. unfold window_end.
  destruct (window_searches s start (start + m)) as [Hr Hr4].
  destruct (Z.ltb_spec (start + m) (len s)); [|lia].
  destruct (Z.gtb_spec
              (Py.max3 (Py.rfind s (txt ". ") start (start + m))
                       (Py.rfind s (txt "! ") start (start + m))
                       (Py.rfind s (txt "? ") start (start + m))) start).
  - clear Hr4. unfold Py.find_start, Py.find_stop in *.
    split_comparisons; lia.
  - destruct (Z.gtb_spec (Py.rfind s (txt " ") start (start + m)) start);
      unfold Py.find_start, Py.find_stop in *; split_comparisons; lia.
Qed.

Section Scan.
Variable s : text.
Variables m o : Z.
Hypothesis m_pos : 0 < m.
Hypothesis o_nonneg : 0 <= o.
Hypothesis long : m < len s.
Hypothesis first_kept : exists c, s !! 0%nat = Some c /\ Py.isspace c = false.
Hypothesis last_kept : exists c, last s = Some c /\ Py.isspace c = false.

Lemma chunk_bound start :
  start < len s ->
  len (Py.strip (Py.slice s start (window_end s m start))) <= m.
Proof.
  intros Hstart.
  pose proof (window_slice_length s m start m_pos Hstart).
  pose proof (strip_length (Py.slice s start (window_end s m start))).
  unfold len in *. lia.
Qed.

(** Whatever the scan returns from a start before the end of the text
    extends the chunks by at least one chunk, and every new chunk is
    good. *)
Lemma scan_sound fuel : forall start chunks r,
  start < len s ->
  while_loop fuel s m o (start, chunks) = Some r ->
  exists extra,
    r = chunks ++ extra /\ extra <> [] /\ Forall (good_chunk m) extra.
Proof.
  induction fuel as [|fuel IH]; intros start chunks r Hstart; [done|].
  rewrite while_loop_step. simpl fst.
  destruct (Z.ltb_spec start (len s)); [|lia].
  unfold loop_body.
  pose proof (chunk_bound start Hstart) as Hlen.
  pose proof (window_end_before_end s m start) as Hbefore.
  pose proof (window_end_final s m start) as Hfinal.
  set (e := window_end s m start) in *.
  set (chunk := Py.strip (Py.slice s start e)) in *.
  destruct (Z.ltb_spec e (len s)) as [He|He].
  - destruct chunk as [|a l] eqn:Hchunk; cbn [Py.truthy]; intros Hrun.
    + apply IH in Hrun; [done|lia].
    + apply IH in Hrun as (extra & -> & Hne & Hall); [|lia].
      exists ((a :: l) :: extra). rewrite <- app_assoc.
      repeat split; [done|]. by constructor.
  - destruct last_kept as (c & Hlast & Hc).
    assert (Hne : chunk <> []).
    { apply (strip_nonempty _ c); [|done]. by apply slice_to_end. }
    destruct fuel as [|fuel']; [done|].
    rewrite while_loop_step. simpl fst.
    destruct (Z.ltb_spec e (len s)); [lia|].
    destruct chunk as [|a l]; [done|]. cbn [Py.truthy snd].
    intros [= <-]. exists [a :: l].
    repeat split; [done|]. by repeat constructor.
Qed.

(** Whatever the whole scan returns has at least two chunks, all of
    them good. *)
Lemma scan_sound_from_zero fuel r :
  while_loop fuel s m o (0, []) = Some r ->
  (2 <= length r)%nat /\ Forall (good_chunk m) r.
Proof.
  destruct fuel as [|fuel]; [done|].
  rewrite while_loop_step. simpl fst.
  destruct (Z.ltb_spec 0 (len s)); [|lia].
  unfold loop_body.
  assert (Hzero : 0 < len s) by lia.
  pose proof (chunk_bound 0 Hzero) as Hlen.
  destruct (window_end_inner s m 0 (Z.le_refl 0) m_pos) as [Hpos Hle]; [lia|].
  set (e := window_end s m 0) in *.
  set (chunk := Py.strip (Py.slice s 0 e)) in *.
  destruct (Z.ltb_spec e (len s)); [|lia].
  destruct first_kept as (c & Hfirst & Hc).
  assert (Hne : chunk <> []).
  { apply (strip_nonempty _ c); [|done]. apply slice_first; [lia|done]. }
  destruct chunk as [|a l] eqn:Hchunk; [done|]. cbn [Py.truthy app].
  intros Hrun. apply scan_sound in Hrun as (extra & -> & Hex & Hall); [|lia].
  split.
  - destruct extra; [done|]. simpl. lia.
  - by constructor.
Qed.

Hypothesis advances : advances_everywhere s m o = true.

(** When the scan advances at every window, it leaves the loop after at
    most [len s - start] further iterations. *)
Lemma scan_terminates n : forall start chunks,
  0 <= start < len s ->
  len s - start <= Z.of_nat n ->
  exists r, while_loop (S n) s m o (start, chunks) = Some r.
Proof.
  induction n as [|n IH]; intros start chunks Hstart Hn; [lia|].
  rewrite while_loop_step. simpl fst.
  destruct (Z.ltb_spec start (len s)); [|lia].
  unfold loop_body.
  set (e := window_end s m start).
  destruct (Z.ltb_spec e (len s)) as [He|He].
  - pose proof (advances_everywhere_spec s m o start advances Hstart He).
    apply IH; fold e in H0; lia.
  - rewrite while_loop_step. simpl fst.
    destruct (Z.ltb_spec e (len s)); [lia|]. by eexists.
Qed.

End Scan.

Lemma split_ws_blank s : is_blank s = true -> split_ws s = [].
Proof.
  unfold is_blank. induction s as [|c r IH]; simpl; [done|].
  destruct (Py.isspace c); [apply IH|done].
Qed.

(** A normalized text that is not empty starts and ends with a
    character that is not whitespace. *)
Lemma normalize_ends s c r :
  normalize s = c :: r ->
  (exists a, (c :: r) !! 0%nat = Some a /\ Py.isspace a = false) /\
  (exists a, last (c :: r) = Some a /\ Py.isspace a = false).
Proof.
  intros Hnorm. split.
  - exists c. split; [done|]. eapply strip_head. exact Hnorm.
  - destruct (last (c :: r)) as [a|] eqn:Hl.
    + exists a. split; [done|]. apply (strip_last (Py.re_sub_ws false s)).
      unfold normalize in Hnorm. by rewrite Hnorm.
    + by apply last_None in Hl.
Qed.

(** C8 (amended).  When the whitespace-normalized form of the text is
    longer than [max_chunk_size], every result [chunk_text] returns
    has at least two chunks, none of them empty and none longer than
    [max_chunk_size]; and [chunk_text] does return when the scan
    advances at every window. *)
Theorem chunk_text_long cfg s max_chunk_size overlap :
  let m := Py.int_or max_chunk_size (MAX_CHUNK_SIZE cfg) in
  let o := Py.int_or overlap (CHUNK_OVERLAP cfg) in
  0 < m -> 0 <= o ->
  m < len (whitespace_normalized_form s) ->
  (forall fuel chunks,
     chunk_text cfg fuel s max_chunk_size overlap = Some chunks ->
     (2 <= length chunks)%nat /\ Forall (good_chunk m) chunks) /\
  (advances_everywhere (whitespace_normalized_form s) m o = true ->
   exists chunks, chunk_text_returns cfg s max_chunk_size overlap chunks).
Proof.
  intros m o Hm Ho Hlong.
  assert (Hnb : is_blank s = false).
  { destruct (is_blank s) eqn:Hb; [|done].
    unfold whitespace_normalized_form in Hlong.
    rewrite (split_ws_blank s Hb) in Hlong. simpl in Hlong.
    change (len []) with 0 in Hlong. lia. }
  assert (Hstrip : Py.strip s <> []).
  { intros H. apply strip_blank in H. congruence. }
  rewrite <- normalize_spec in *.
  assert (Hrun : forall fuel,
    chunk_text cfg fuel s max_chunk_size overlap
    = while_loop fuel (normalize s) m o (0, [])).
  { intros fuel. unfold chunk_text. fold m o.
    destruct s as [|a l]; [done|].
    destruct (Py.strip (a :: l)); [done|]. simpl orb. cbv iota.
    by destruct (Z.leb_spec (len (normalize (a :: l))) m); [lia|]. }
  destruct (normalize s) as [|c r] eqn:Hnorm.
  { change (len []) with 0 in Hlong. lia. }
  destruct (normalize_ends s c r Hnorm) as [Hfirst Hlast].
  split.
  - intros fuel chunks. rewrite Hrun.
    by apply scan_sound_from_zero.
  - intros Hadv.
    destruct (scan_terminates (c :: r) m o Ho Hadv (length (c :: r)) 0 [])
      as [chunks Hchunks]; [lia|unfold len; lia|].
    exists chunks, (S (length (c :: r))). by rewrite Hrun.
Qed.

Lemma chunk_text_long_witness :
  0 < 30 /\ 0 <= 5 /\
  30 < len (whitespace_normalized_form four_sentences) /\
  (forall fuel chunks,
     chunk_text settings fuel four_sentences (Some 30) (Some 5) = Some chunks ->
     (2 <= length chunks)%nat /\ Forall (good_chunk 30) chunks) /\
  (advances_everywhere (whitespace_normalized_form four_sentences) 30 5 = true ->
   exists chunks,
     chunk_text_returns settings four_sentences (Some 30) (Some 5) chunks).
Proof.
  assert (H1 : 30 < len (whitespace_normalized_form four_sentences))
    by (by vm_compute).
  split; [lia|]. split; [lia|]. split; [exact H1|].
  apply (chunk_text_long settings four_sentences (Some 30) (Some 5));
    [by vm_compute|by vm_compute|exact H1].
Defined.

(** The text of [test_chunk_text_sentence_boundary] advances at every
    window. *)
Example four_sentences_advance :
  advances_everywhere (whitespace_normalized_form four_sentences) 30 5 = true.
Proof. by vm_compute. Qed.

(** C8, as stated, fails when the text is long only because of its
    whitespace: 21 characters with [max_chunk_size = 10] give a single
    chunk. *)
Lemma chunk_text_padded_counterexample :
  padded_example <> [] /\ 10 < len padded_example /\
  chunk_text settings 0 padded_example (Some 10) (Some 2) = Some [txt "a"].
Proof. repeat split; by vm_compute. Qed.

(** The run of [test_chunk_text_sentence_boundary]. *)
Example chunk_text_four_sentences :
  chunk_text settings 5 four_sentences (Some 30) (Some 5) =
  Some [txt "First sentence."; txt "ence. Second sentence.";
        txt "ence. Third sentence."; txt "ence. Fourth sentence."].
Proof. by vm_compute. Qed.

(** ** Prompt assembly *)

Lemma calculate_token_count_nonneg tk s : 0 <= Utils.calculate_token_count tk s.
Proof.
  destruct tk as [encode decode|]; simpl.
  - apply len_nonneg.
  - apply Z.div_pos; [apply len_nonneg|lia].
Qed.

(** The fallback estimator and the fallback truncation agree. *)
Lemma fallback_truncation_sound : truncation_sound Unavailable.
Proof.
  intros s n Hn. simpl. unfold Py.slice_to.
  pose proof (slice_length s 0 (n * 4)).
  apply Z.div_le_upper_bound; lia.
Qed.

Section Context.
Variable tk : tokenizer.
Variable B : Z.
Hypothesis sound : truncation_sound tk.

(** Once the running count exceeds the budget nothing more is added. *)
Lemma context_loop_over docs i parts cur :
  B < cur -> RagEngine.context_loop tk B docs i parts cur = (parts, cur).
Proof.
  intros Hover. destruct docs as [|doc rest]; [done|]. simpl.
  pose proof (calculate_token_count_nonneg tk (get (text_ doc) [])).
  destruct (Z.gtb_spec (cur + Utils.calculate_token_count tk (get (text_ doc) [])) B);
    [|lia].
  by destruct (Z.gtb_spec (B - cur) 100); [lia|].
Qed.

(** The loop appends the numbered blocks of the texts the
    specification selects for the budget that is left. *)
Lemma context_loop_spec docs : forall i parts cur,
  fst (RagEngine.context_loop tk B docs i parts cur)
    = parts ++ number_blocks i (select_texts tk (B - cur) docs).
Proof.
  induction docs as [|doc rest IH]; intros i parts cur.
  { simpl. by rewrite app_nil_r. }
  simpl RagEngine.context_loop. simpl select_texts.
  set (doc_text := get (text_ doc) []).
  set (doc_tokens := Utils.calculate_token_count tk doc_text).
  pose proof (calculate_token_count_nonneg tk doc_text) as Hpos.
  fold doc_tokens in Hpos.
  destruct (Z.gtb_spec (cur + doc_tokens) B) as [Hover|Hfits];
    destruct (Z.leb_spec doc_tokens (B - cur)) as [Hle|Hgt]; try lia.
  - destruct (Z.gtb_spec (B - cur) 100) as [Hroom|Hfull].
    + by rewrite context_loop_over by lia.
    + simpl. by rewrite app_nil_r.
  - rewrite IH, <- app_assoc. simpl.
    by replace (B - (cur + doc_tokens)) with (B - cur - doc_tokens) by lia.
Qed.

(** The selected texts fit a non-negative budget. *)
Lemma select_texts_within docs : forall remaining,
  0 <= remaining ->
  included_tokens tk (select_texts tk remaining docs) <= remaining.
Proof.
  induction docs as [|doc rest IH]; intros remaining Hrem; simpl; [done|].
  set (doc_text := get (text_ doc) []).
  set (doc_tokens := Utils.calculate_token_count tk doc_text).
  pose proof (calculate_token_count_nonneg tk doc_text) as Hpos.
  fold doc_tokens in Hpos.
  destruct (Z.leb_spec doc_tokens remaining) as [Hle|Hgt].
  - simpl. fold doc_tokens. specialize (IH (remaining - doc_tokens)). lia.
  - destruct (Z.gtb_spec remaining 100) as [Hroom|Hfull]; simpl; [|done].
    pose proof (sound doc_text remaining). lia.
Qed.

End Context.

(** C1 (amended).  The context is made of the numbered blocks of the
    texts selected in retrieval order: a document whose estimated token
    count fits the remaining budget is taken whole, one that does not
    fit is truncated to the remaining budget when more than 100 tokens
    remain, and the selection ends there either way.  For a budget
    [B >= 0] the estimated token counts of the selected texts add up
    to at most [B]; the block headers and separators are not counted. *)
Theorem build_context_within_budget tk docs B :
  0 <= B ->
  truncation_sound tk ->
  RagEngine.build_context tk docs B
    = RagEngine.join [RagEngine.newline; RagEngine.newline]
        (number_blocks 1 (select_texts tk B docs)) /\
  included_tokens tk (select_texts tk B docs) <= B.
Proof.
  intros HB Hsound. split.
  - unfold RagEngine.build_context. rewrite context_loop_spec.
    by replace (B - 0) with B by lia.
  - by apply select_texts_within.
Qed.

Lemma build_context_within_budget_witness :
  0 <= 200 /\ truncation_sound Unavailable /\
  RagEngine.build_context Unavailable [long_document; short_document] 200
    = RagEngine.join [RagEngine.newline; RagEngine.newline]
        (number_blocks 1
           (select_texts Unavailable 200 [long_document; short_document])) /\
  included_tokens Unavailable
    (select_texts Unavailable 200 [long_document; short_document]) <= 200.
Proof.
  split; [lia|]. split; [apply fallback_truncation_sound|].
  apply build_context_within_budget; [lia|apply fallback_truncation_sound].
Defined.

(** A document of 250 estimated tokens is cut to the budget of 200, and
    the document after it is left out. *)
Example build_context_truncates :
  RagEngine.build_context Unavailable [long_document; short_document] 200
    = txt "[Document 1]" ++ RagEngine.newline :: replicate 800 "x"%char.
Proof. by_vm. Qed.

(** C1, as stated, fails: with the fallback estimator and a budget of
    one token, the context assembled for a four-character document
    counts four tokens. *)
Lemma build_context_counterexample :
  RagEngine.build_context Unavailable [doc_with_text (txt "abcd")] 1
    = txt "[Document 1]" ++ RagEngine.newline :: txt "abcd" /\
  Utils.calculate_token_count Unavailable
    (RagEngine.build_context Unavailable [doc_with_text (txt "abcd")] 1) = 4 /\
  ~ (4 <= 1).
Proof. split; [by vm_compute|split; [by vm_compute|lia]]. Qed.

(** ** The retry policy *)

Lemma embedding_calls_record e w :
  embedding_calls (record_event e w) =
  (embedding_calls w + if is_embedding_call e then 1 else 0)%nat.
Proof.
  unfold embedding_calls, record_event. simpl.
  rewrite filter_app, length_app. f_equal.
  by destruct e.
Qed.

Lemma llm_calls_record e w :
  llm_calls (record_event e w) =
  (llm_calls w + if is_llm_call e then 1 else 0)%nat.
Proof.
  unfold llm_calls, record_event. simpl.
  rewrite filter_app, length_app. f_equal.
  by destruct e.
Qed.

Lemma embedding_calls_sleep d w r w' :
  time_sleep d w = Some (r, w') -> embedding_calls w' = embedding_calls w.
Proof.
  intros [= _ <-]. unfold embedding_calls. simpl.
  rewrite filter_app. simpl. by rewrite app_nil_r.
Qed.

Lemma llm_calls_sleep d w r w' :
  time_sleep d w = Some (r, w') -> llm_calls w' = llm_calls w.
Proof.
  intros [= _ <-]. unfold llm_calls. simpl.
  rewrite filter_app. simpl. by rewrite app_nil_r.
Qed.

Lemma collection_sleep d w r w' :
  time_sleep d w = Some (r, w') -> collection w' = collection w.
Proof. by intros [= _ <-]. Qed.

Section Retrying.
Context {A : Type}.
Variable retry_on : exception -> bool.
Variable max_attempts : Z.
Variable wait : Z -> Z.
Variable fn : M A.

Abbreviation run fuel attempt_number :=
  (Tenacity.retrying fuel retry_on
     (Tenacity.stop_after_attempt max_attempts) wait fn attempt_number).

(** A first attempt that succeeds is the result. *)
Lemma retrying_success fuel attempt_number w v w' :
  fn w = Some (Ok v, w') ->
  run (S fuel) attempt_number w = Some (Ok v, w').
Proof. intros H. simpl. by rewrite H. Qed.


(** Whatever the attempts and the sleeps leave unchanged is left
    unchanged by the whole loop. *)
Lemma retrying_preserves {X} (f : world -> X) :
  (forall w r w', fn w = Some (r, w') -> f w' = f w) ->
  (forall d w r w', time_sleep d w = Some (r, w') -> f w' = f w) ->
  forall fuel attempt_number w r w',
    run fuel attempt_number w = Some (r, w') -> f w' = f w.
Proof.
  intros Hfn Hsleep.
  induction fuel as [|fuel IH]; intros attempt_number w r w'; simpl; [done|].
  destruct (fn w) as [[[v|e] w1]|] eqn:Hcall; [| |done].
  - intros [= <- <-]. by eapply Hfn.
  - pose proof (Hfn _ _ _ Hcall) as H1.
    destruct (retry_on e).
    + destruct (Tenacity.stop_after_attempt max_attempts attempt_number).
      * intros [= <- <-]. done.
      * intros Hrec. apply IH in Hrec. rewrite Hrec.
        rewrite <- H1. by eapply Hsleep.
    + intros [= <- <-]. done.
Qed.

Variable calls : world -> nat.
Hypothesis fn_counts :
  forall w r w', fn w = Some (r, w') -> calls w' = S (calls w).
Hypothesis sleep_keeps :
  forall d w r w', time_sleep d w = Some (r, w') -> calls w' = calls w.
Hypothesis always_transient :
  forall w, exists e w', fn w = Some (Raise e, w') /\ retry_on e = true.


End Retrying.


Lemma embeddings_create_call_counts E s w r w' :
  Embeddings.embeddings_create_call E s w = Some (r, w') ->
  embedding_calls w' = S (embedding_calls w).
Proof. intros [= _ <-]. rewrite embedding_calls_record. simpl. lia. Qed.

Lemma chat_completions_call_counts E p w r w' :
  RagEngine.chat_completions_call E p w = Some (r, w') ->
  llm_calls w' = S (llm_calls w).
Proof. intros [= _ <-]. rewrite llm_calls_record. simpl. lia. Qed.




(** Which failures the decorators retry: an error that derives from
    [APIError] is retried, whatever its cause; an unrelated error is
    not. *)
Example retried_classes :
  isinstance rate_limit_error [RateLimitError; APIError] = true /\
  isinstance bad_request_error [RateLimitError; APIError] = true /\
  isinstance type_error [RateLimitError; APIError; Timeout] = false.
Proof. by vm_compute. Qed.

(** The waits of [wait_exponential(multiplier=1, min=2, max=10)]. *)
Example wait_exponential_schedule :
  Tenacity.wait_exponential 1 2 10 <$> [1; 2; 3; 4; 5; 6] = [2; 2; 4; 8; 10; 10].
Proof. reflexivity. Qed.

(** ** The query pipeline *)

(** [get_embedding] leaves unchanged whatever an embedding request and
    a sleep leave unchanged. *)
Lemma get_embedding_preserves {X} (f : world -> X) E fuel s w r w' :
  (forall e w, is_llm_call e = false -> is_mongo_call e = false ->
               f (record_event e w) = f w) ->
  (forall d w r w', time_sleep d w = Some (r, w') -> f w' = f w) ->
  Embeddings.get_embedding E fuel s w = Some (r, w') ->
  f w' = f w.
Proof.
  intros Hrecord Hsleep. unfold Embeddings.get_embedding.
  destruct (negb (Py.truthy s) || negb (Py.truthy (Py.strip s))).
  - unfold raise. by intros [= _ <-].
  - unfold Embeddings._call_embedding_api, Tenacity.retry.
    apply retrying_preserves; [|exact Hsleep].
    intros w0 r0 w0' [= _ <-]. by apply Hrecord.
Qed.

Lemma get_embedding_llm_calls E fuel s w r w' :
  Embeddings.get_embedding E fuel s w = Some (r, w') ->
  llm_calls w' = llm_calls w.
Proof.
  apply get_embedding_preserves; [|apply llm_calls_sleep].
  intros e w0 He _. rewrite llm_calls_record, He. lia.
Qed.

Lemma get_embedding_collection E fuel s w r w' :
  Embeddings.get_embedding E fuel s w = Some (r, w') ->
  collection w' = collection w.
Proof.
  apply get_embedding_preserves; [done|apply collection_sleep].
Qed.

Lemma mongo_knn_search_llm_calls E q k f w r w' :
  Db.mongo_knn_search E q k f w = Some (r, w') ->
  llm_calls w' = llm_calls w.
Proof.
  unfold Db.mongo_knn_search.
  destruct (mongo_fault E (mongo_calls w)); intros [= _ <-];
    rewrite llm_calls_record; simpl; lia.
Qed.

Lemma retrieve_llm_calls E fuel q k f w r w' :
  RagEngine.retrieve E fuel q k f w = Some (r, w') ->
  llm_calls w' = llm_calls w.
Proof.
  unfold RagEngine.retrieve, bind.
  destruct (Embeddings.get_embedding E fuel q w) as [[[v|e] w1]|] eqn:Hemb;
    [| |done].
  - intros Hs. apply mongo_knn_search_llm_calls in Hs.
    apply get_embedding_llm_calls in Hemb. congruence.
  - intros [= _ <-]. by eapply get_embedding_llm_calls.
Qed.

(** C6.  When the retrieval step returns no document, [query] returns
    normally: the answer is the designated message, which contains
    the words "couldn't find", the sources are empty, the world is the
    one retrieval left, and no generative call has been made. *)
Theorem query_without_documents E fuel question top_k filter_criteria w w1 :
  RagEngine.retrieve E fuel question top_k filter_criteria w
    = Some (Ok [], w1) ->
  exists r,
    RagEngine.query E fuel question top_k filter_criteria w = Some (Ok r, w1) /\
    RagEngine.answer r = RagEngine.not_found_answer /\
    contains (RagEngine.answer r) (txt "couldn't find") = true /\
    RagEngine.sources r = [] /\
    llm_calls w1 = llm_calls w.
Proof.
  intros Hret.
  eexists. split.
  - unfold RagEngine.query, bind, time_time. rewrite Hret. simpl. reflexivity.
  - simpl. split; [reflexivity|]. split; [by vm_compute|].
    split; [reflexivity|]. by eapply retrieve_llm_calls.
Qed.

Lemma query_without_documents_witness :
  RagEngine.retrieve quiet_env 3 question None None empty_world
    = Some (Ok [], after_empty_search) /\
  exists r,
    RagEngine.query quiet_env 3 question None None empty_world
      = Some (Ok r, after_empty_search) /\
    RagEngine.answer r = RagEngine.not_found_answer /\
    contains (RagEngine.answer r) (txt "couldn't find") = true /\
    RagEngine.sources r = [] /\
    llm_calls after_empty_search = llm_calls empty_world.
Proof.
  assert (Hret : RagEngine.retrieve quiet_env 3 question None None empty_world
                 = Some (Ok [], after_empty_search)) by by_vm.
  split; [exact Hret|]. exact (query_without_documents _ _ _ _ _ _ _ Hret).
Defined.

(** ** The vector search *)

Lemma vector_search_length sim coll q numCandidates limit :
  (length (Db.vector_search sim coll q numCandidates limit) <= Z.to_nat limit)%nat.
Proof. unfold Db.vector_search. rewrite length_take. lia. Qed.

(** [$project] keeps the fields a filter can test. *)
Lemma matches_project f r :
  Db.matches f (fst (Db.project r)) = Db.matches f (fst r).
Proof.
  unfold Db.matches. induction f as [|[fld v] f IH]; [done|].
  cbn [forallb]. rewrite IH. by destruct fld.
Qed.

Lemma filter_fmap {A B} (p : B -> bool) (g : A -> B) (l : list A) :
  List.filter p (g <$> l) = g <$> List.filter (fun x => p (g x)) l.
Proof.
  induction l as [|x l IH]; csimpl; [done|].
  destruct (p (g x)); csimpl; by rewrite IH.
Qed.

Lemma filter_length_le {A} (p : A -> bool) (l : list A) :
  (length (List.filter p l) <= length l)%nat.
Proof.
  induction l as [|x l IH]; simpl; [lia|]. destruct (p x); simpl; lia.
Qed.

Lemma filter_all {A} (p : A -> bool) (l : list A) :
  (forall x, p x = true) -> List.filter p l = l.
Proof.
  intros Hp. induction l as [|x l IH]; simpl; [done|].
  by rewrite Hp, IH.
Qed.

(** The pipeline with a filter returns the matching documents of the
    result of the pipeline without it. *)
Lemma aggregate_with_filter sim coll q k f :
  Db.aggregate sim coll (Db.knn_pipeline q k (Some f)) =
  List.filter (Db.matches f) (Db.aggregate sim coll (Db.knn_pipeline q k None)).
Proof.
  unfold Db.knn_pipeline, Db.aggregate. simpl get.
  pose proof (vector_search_length sim coll q 50 k) as Hlen.
  destruct f as [|c f]; simpl.
  - by rewrite filter_all.
  - set (rows := Db.vector_search sim coll q 50 k) in *.
    rewrite !take_ge.
    + rewrite !filter_fmap. do 2 apply (f_equal (fmap _)).
      apply List.filter_ext. intros r. by rewrite matches_project.
    + by rewrite length_fmap.
    + rewrite length_fmap.
      etrans; [apply filter_length_le|done].
Qed.

(** C5 (amended).  A filter is applied as a [$match] stage after the
    vector search stage: the search with a filter returns those of the
    top-k ranked results of the unfiltered search that match it. *)
Theorem filter_applies_to_ranked_results E q k f w docs w' :
  Db.mongo_knn_search E q k None w = Some (Ok docs, w') ->
  exists w'',
    Db.mongo_knn_search E q k (Some f) w
      = Some (Ok (List.filter (Db.matches f) docs), w'').
Proof.
  unfold Db.mongo_knn_search.
  destruct (mongo_fault E (mongo_calls w)); [done|].
  intros [= <- _]. eexists. by rewrite aggregate_with_filter.
Qed.

Lemma filter_applies_to_ranked_results_witness :
  Db.mongo_knn_search quiet_env [10] 1 None two_records_world
    = Some (Ok [fst (Db.project (Db.document_of record_a, 0))],
            record_event (Aggregate (Db.knn_pipeline [10] 1 None))
              two_records_world) /\
  exists w'',
    Db.mongo_knn_search quiet_env [10] 1 (Some only_b) two_records_world
      = Some (Ok (List.filter (Db.matches only_b)
                    [fst (Db.project (Db.document_of record_a, 0))]), w'').
Proof.
  assert (H : Db.mongo_knn_search quiet_env [10] 1 None two_records_world
    = Some (Ok [fst (Db.project (Db.document_of record_a, 0))],
            record_event (Aggregate (Db.knn_pipeline [10] 1 None))
              two_records_world)) by by_vm.
  split; [exact H|].
  exact (filter_applies_to_ranked_results _ _ _ only_b _ _ _ H).
Defined.

(** C5, as stated, fails: with [top_k = 1] the only record that
    matches the filter is ranked second, so the search returns
    nothing, whereas filtering before ranking returns that record. *)
Lemma post_filter_counterexample :
  fst <$> Db.mongo_knn_search quiet_env [10] 1 (Some only_b) two_records_world
    = Some (Ok []) /\
  Db.prefiltered_search (similarity quiet_env) two_records [10] 1 only_b
    = [fst (Db.project (Db.document_of record_b, -3))].
Proof. split; by_vm. Qed.

(** ** Ingestion of one file *)

(** The identifiers of the tests of the repository. *)
Example generate_chunk_id_test :
  ChunkId.generate_chunk_id "test.txt" 0 = "5d44a54496f10087b80a5f08167c8e99" /\
  ChunkId.generate_chunk_id "test.txt" 0 <> ChunkId.generate_chunk_id "test.txt" 1 /\
  ChunkId.generate_chunk_id "file1.txt" 0 <> ChunkId.generate_chunk_id "file2.txt" 0.
Proof. split; [|split]; by vm_compute. Qed.






(** ** Ingestion of a directory *)

Lemma ingest_one_raise E fuel meta f results w e w' :
  IngestionPipeline.ingest_file E fuel f meta w = Some (Raise e, w') ->
  IngestionPipeline.ingest_one E fuel meta f results w
    = Some (Ok (<[f := []]> results), w').
Proof.
  intros H. unfold IngestionPipeline.ingest_one, try_except, bind.
  by rewrite H.
Qed.

Lemma ingest_one_ok E fuel meta f results w ids w' :
  IngestionPipeline.ingest_file E fuel f meta w = Some (Ok ids, w') ->
  IngestionPipeline.ingest_one E fuel meta f results w
    = Some (Ok (<[f := ids]> results), w').
Proof.
  intros H. unfold IngestionPipeline.ingest_one, try_except, bind.
  by rewrite H.
Qed.

(** A blank file is ingested without error and without chunks. *)
Lemma ingest_file_blank E fuel f meta w :
  blank_file E f ->
  IngestionPipeline.ingest_file E fuel f meta w = Some (Ok [], w).
Proof.
  intros (Hex & Hsuf & s & Hs & Hblank).
  unfold IngestionPipeline.ingest_file, bind, IngestionPipeline.parse_file.
  rewrite Hex. simpl negb. cbv iota.
  rewrite bool_decide_eq_true_2 by done. rewrite Hs.
  apply strip_blank in Hblank. by rewrite Hblank.
Qed.

(** The loop over the files never raises. *)
Lemma ingest_files_returns E fuel meta files :
  forall results w out w',
    IngestionPipeline.ingest_files E fuel meta files results w = Some (out, w') ->
    exists res, out = Ok res.
Proof.
  induction files as [|f rest IH]; intros results w out w'; simpl.
  - intros [= <- _]. by eexists.
  - unfold bind.
    destruct (IngestionPipeline.ingest_file E fuel f meta w)
      as [[[ids|e] w1]|] eqn:Hf.
    + rewrite (ingest_one_ok _ _ _ _ _ _ _ _ Hf). apply IH.
    + rewrite (ingest_one_raise _ _ _ _ _ _ _ _ Hf). apply IH.
    + unfold IngestionPipeline.ingest_one, try_except, bind. by rewrite Hf.
Qed.

(** Files that are not processed keep their entry. *)
Lemma ingest_files_lookup E fuel meta files f :
  f ∉ files ->
  forall results w res w',
    IngestionPipeline.ingest_files E fuel meta files results w
      = Some (Ok res, w') ->
    res !! f = results !! f.
Proof.
  induction files as [|g rest IH]; intros Hnotin results w res w'; simpl.
  - by intros [= <- _].
  - apply not_elem_of_cons in Hnotin as [Hne Hrest].
    unfold bind.
    destruct (IngestionPipeline.ingest_file E fuel g meta w)
      as [[[ids|e] w1]|] eqn:Hg.
    + rewrite (ingest_one_ok _ _ _ _ _ _ _ _ Hg).
      intros Hrun. rewrite (IH Hrest _ _ _ _ Hrun).
      by rewrite lookup_insert_ne.
    + rewrite (ingest_one_raise _ _ _ _ _ _ _ _ Hg).
      intros Hrun. rewrite (IH Hrest _ _ _ _ Hrun).
      by rewrite lookup_insert_ne.
    + unfold IngestionPipeline.ingest_one, try_except, bind. by rewrite Hg.
Qed.

(** C10.  In the loop of [ingest_directory], a file whose ingestion
    raises is recorded with an empty list of chunk ids and the loop
    goes on with the remaining files; a blank file is recorded in the
    same way, so the returned mapping does not tell the two apart. *)
Theorem failed_file_recorded_empty E fuel meta f rest results w out w_end :
  f ∉ rest ->
  IngestionPipeline.ingest_files E fuel meta (f :: rest) results w
    = Some (out, w_end) ->
  (exists e w', IngestionPipeline.ingest_file E fuel f meta w = Some (Raise e, w'))
  \/ blank_file E f ->
  exists res w',
    out = Ok res /\
    res !! f = Some [] /\
    IngestionPipeline.ingest_files E fuel meta rest (<[f := []]> results) w'
      = Some (Ok res, w_end).
Proof.
  intros Hnotin Hrun Hcase.
  destruct (ingest_files_returns _ _ _ _ _ _ _ _ Hrun) as [res ->].
  assert (Hstep : exists w',
    IngestionPipeline.ingest_one E fuel meta f results w
      = Some (Ok (<[f := []]> results), w')).
  { destruct Hcase as [(e & w' & Hraise)|Hblank].
    - exists w'. by eapply ingest_one_raise.
    - exists w. apply ingest_one_ok. by apply ingest_file_blank. }
  destruct Hstep as [w' Hstep].
  simpl in Hrun. unfold bind in Hrun. rewrite Hstep in Hrun.
  exists res, w'. split; [done|]. split; [|done].
  rewrite (ingest_files_lookup _ _ _ _ _ Hnotin _ _ _ _ Hrun).
  apply lookup_insert_eq.
Qed.

(** A directory with a file whose embedding requests are rate limited
    and a blank file: both are recorded with an empty list. *)
Example ingest_directory_isolates :
  fst <$> IngestionPipeline.ingest_directory rate_limited_env 3 "docs" None true
            empty_world
  = Some (Ok (<["docs/a.txt" := []]> {["docs/blank.txt" := []]})).
Proof. by_vm. Qed.

Lemma failed_file_recorded_empty_witness :
  ("docs/a.txt" ∉ ["docs/blank.txt"]) /\
  IngestionPipeline.ingest_files rate_limited_env 3 None
    ["docs/a.txt"; "docs/blank.txt"] ∅ empty_world
    = Some (Ok (<["docs/a.txt" := []]> {["docs/blank.txt" := []]}),
            after_failed_batch) /\
  IngestionPipeline.ingest_file rate_limited_env 3 "docs/a.txt" None empty_world
    = Some (Raise (RetryError rate_limit_error), after_failed_file) /\
  exists res w',
    Ok (<["docs/a.txt" := []]> {["docs/blank.txt" := []]}
        : gmap string (list string)) = Ok res /\
    res !! "docs/a.txt" = Some [] /\
    IngestionPipeline.ingest_files rate_limited_env 3 None ["docs/blank.txt"]
      (<["docs/a.txt" := []]> ∅) w'
      = Some (Ok res, after_failed_batch).
Proof.
  assert (H1 : "docs/a.txt" ∉ ["docs/blank.txt"]).
  { apply not_elem_of_cons. split; [done|apply not_elem_of_nil]. }
  assert (H2 : IngestionPipeline.ingest_files rate_limited_env 3 None
                 ["docs/a.txt"; "docs/blank.txt"] ∅ empty_world
               = Some (Ok (<["docs/a.txt" := []]> {["docs/blank.txt" := []]}),
                       after_failed_batch)) by by_vm.
  assert (H3 : IngestionPipeline.ingest_file rate_limited_env 3 "docs/a.txt"
                 None empty_world
               = Some (Raise (RetryError rate_limit_error), after_failed_file))
    by by_vm.
  split; [exact H1|]. split; [exact H2|]. split; [exact H3|].
  apply (failed_file_recorded_empty rate_limited_env 3 None "docs/a.txt"
           ["docs/blank.txt"] ∅ empty_world _ _ H1 H2).
  left. by eexists _, _.
Defined.

(* ================================================================== *)
(** * Further properties *)
(* ================================================================== *)

Import SpecMore MoreExamples.

(** ** The chunker: what the chunks are *)

Lemma rstrip_prefix s : exists q, s = Py.rstrip s ++ q.
Proof.
  induction s as [|a s [q IH]]; [by exists []|].
  rewrite rstrip_cons. destruct (Py.rstrip s) as [|b r] eqn:E.
  - destruct (Py.isspace a); [by exists (a :: s)|].
    exists s. by simpl.
  - exists q. change (a :: s = a :: ((b :: r) ++ q)). by f_equal.
Qed.

Lemma occurs_in_refl s : occurs_in s s.
Proof. exists [], []. by rewrite app_nil_r. Qed.

Lemma occurs_in_trans a b c : occurs_in a b -> occurs_in b c -> occurs_in a c.
Proof.
  intros (p1 & q1 & ->) (p2 & q2 & ->).
  exists (p2 ++ p1), (q1 ++ q2). by rewrite <- !app_assoc.
Qed.

Lemma strip_occurs s : occurs_in (Py.strip s) s.
Proof.
  destruct (rstrip_prefix s) as [q Hq].
  destruct (lstrip_suffix (Py.rstrip s)) as [p Hp].
  exists p, q. unfold Py.strip. rewrite app_assoc, <- Hp. exact Hq.
Qed.

Lemma slice_occurs (s : text) a b : occurs_in (Py.slice s a b) s.
Proof.
  unfold Py.slice.
  set (lo := Z.to_nat (Py.slice_index (len s) a)).
  set (k := Z.to_nat (Py.slice_index (len s) b - Py.slice_index (len s) a)).
  exists (take lo s), (drop k (drop lo s)).
  by rewrite take_drop, take_drop.
Qed.

Lemma rstrip_fixed s :
  (forall c, last s = Some c -> Py.isspace c = false) -> Py.rstrip s = s.
Proof.
  induction s as [|a s IH]; intros Hlast; [done|].
  rewrite rstrip_cons. destruct s as [|b r].
  - simpl. by rewrite (Hlast a).
  - rewrite IH; [done|]. intros c Hc. apply Hlast. by rewrite last_cons, Hc.
Qed.

Lemma lstrip_fixed s :
  (forall c, head s = Some c -> Py.isspace c = false) -> Py.lstrip s = s.
Proof.
  destruct s as [|a s]; intros Hhead; [done|].
  by rewrite lstrip_cons, (Hhead a).
Qed.

(** Stripping twice is stripping once. *)
Lemma strip_idempotent s : Py.strip (Py.strip s) = Py.strip s.
Proof.
  assert (Hr : Py.rstrip (Py.strip s) = Py.strip s).
  { apply rstrip_fixed. intros c. apply strip_last. }
  unfold Py.strip at 1. rewrite Hr. apply lstrip_fixed.
  intros c Hc. destruct (Py.strip s) as [|a l] eqn:E; [done|].
  injection Hc as <-. by eapply strip_head.
Qed.

Lemma split_ws_nil s : split_ws s = [] -> is_blank s = true.
Proof.
  unfold is_blank. induction s as [|c r IH]; [done|].
  destruct (Py.isspace c) eqn:Hc.
  - simpl. rewrite Hc. intros H. by rewrite IH.
  - intros H. by destruct (split_ws_cons_keep c r Hc).
Qed.

(** The normalized text is empty exactly for blank input. *)
Lemma normalize_nil s : normalize s = [] <-> is_blank s = true.
Proof.
  rewrite normalize_spec. unfold whitespace_normalized_form. split.
  - intros H. apply split_ws_nil.
    pose proof (join_space_head s) as Hj. by rewrite H in Hj.
  - intros H. by rewrite (split_ws_blank s H).
Qed.

(** [chunk_text] in terms of the normalized text. *)
Lemma chunk_text_unfold cfg fuel s max_chunk_size overlap :
  chunk_text cfg fuel s max_chunk_size overlap =
  if is_blank s then Some []
  else if len (normalize s) <=? Py.int_or max_chunk_size (MAX_CHUNK_SIZE cfg)
       then Some [normalize s]
       else while_loop fuel (normalize s)
              (Py.int_or max_chunk_size (MAX_CHUNK_SIZE cfg))
              (Py.int_or overlap (CHUNK_OVERLAP cfg)) (0, []).
Proof.
  unfold chunk_text. destruct (is_blank s) eqn:Hb.
  - apply strip_blank in Hb. rewrite Hb. simpl. by rewrite orb_true_r.
  - assert (Hs : Py.strip s <> []).
    { intros H. apply strip_blank in H. congruence. }
    destruct s as [|c r]; [done|].
    by destruct (Py.strip (c :: r)).
Qed.

(** The scan only appends chunks. *)
Lemma while_loop_extends fuel s m o : forall st r,
  while_loop fuel s m o st = Some r -> exists extra, r = snd st ++ extra.
Proof.
  induction fuel as [|fuel IH]; intros [start chunks] r; [done|].
  rewrite while_loop_step. simpl fst. simpl snd.
  destruct (start <? len s).
  - intros Hrun. apply IH in Hrun as [extra ->]. unfold loop_body. simpl snd.
    destruct (Py.truthy _); [|by eexists].
    exists ([Py.strip (Py.slice s start (window_end s m start))] ++ extra).
    by rewrite app_assoc.
  - intros [= <-]. exists []. by rewrite app_nil_r.
Qed.

(** Every chunk the scan appends is a piece of the text. *)
Lemma while_loop_pieces fuel s m o : forall st r,
  while_loop fuel s m o st = Some r ->
  Forall (piece_of s) (snd st) -> Forall (piece_of s) r.
Proof.
  induction fuel as [|fuel IH]; intros [start chunks] r; [done|].
  rewrite while_loop_step. simpl fst. simpl snd.
  destruct (start <? len s); [|by intros [= <-]].
  intros Hrun Hall. apply IH in Hrun; [done|].
  unfold loop_body. simpl snd.
  set (piece := Py.slice s start (window_end s m start)).
  destruct (Py.strip piece) as [|a l] eqn:Hstrip; [done|]. cbn [Py.truthy].
  apply Forall_app. split; [done|]. constructor; [|done].
  rewrite <- Hstrip. split; [by rewrite Hstrip|]. split.
  - apply strip_idempotent.
  - eapply occurs_in_trans; [apply strip_occurs|apply slice_occurs].
Qed.

(** X1.  Whatever [chunk_text] returns, every chunk is a non-empty
    contiguous piece of the whitespace-normalized text, without leading
    or trailing whitespace. *)
Theorem chunk_text_pieces cfg fuel s max_chunk_size overlap chunks :
  chunk_text cfg fuel s max_chunk_size overlap = Some chunks ->
  Forall (piece_of (whitespace_normalized_form s)) chunks.
Proof.
  rewrite <- normalize_spec, chunk_text_unfold.
  destruct (is_blank s) eqn:Hb; [by intros [= <-]|].
  destruct (len (normalize s) <=? _).
  - intros [= <-]. constructor; [|done]. split; [|split].
    + intros H. apply normalize_nil in H. congruence.
    + apply strip_idempotent.
    + apply occurs_in_refl.
  - intros Hrun. by apply while_loop_pieces in Hrun.
Qed.

Lemma chunk_text_pieces_witness :
  chunk_text settings 5 four_sentences (Some 30) (Some 5)
    = Some [txt "First sentence."; txt "ence. Second sentence.";
            txt "ence. Third sentence."; txt "ence. Fourth sentence."] /\
  Forall (piece_of (whitespace_normalized_form four_sentences))
    [txt "First sentence."; txt "ence. Second sentence.";
     txt "ence. Third sentence."; txt "ence. Fourth sentence."].
Proof.
  assert (H : chunk_text settings 5 four_sentences (Some 30) (Some 5)
    = Some [txt "First sentence."; txt "ence. Second sentence.";
            txt "ence. Third sentence."; txt "ence. Fourth sentence."])
    by by_vm.
  split; [exact H|].
  exact (chunk_text_pieces settings 5 four_sentences (Some 30) (Some 5) _ H).
Defined.

(** X2.  Texts with the same whitespace-normalized form are chunked in
    the same way. *)
Theorem chunk_text_by_normal_form cfg fuel s1 s2 max_chunk_size overlap :
  whitespace_normalized_form s1 = whitespace_normalized_form s2 ->
  chunk_text cfg fuel s1 max_chunk_size overlap
  = chunk_text cfg fuel s2 max_chunk_size overlap.
Proof.
  rewrite <- !normalize_spec. intros Heq. rewrite !chunk_text_unfold.
  assert (Hb : is_blank s1 = is_blank s2).
  { destruct (is_blank s1) eqn:H1, (is_blank s2) eqn:H2; try done.
    - apply normalize_nil in H1. rewrite Heq in H1.
      apply normalize_nil in H1. congruence.
    - apply normalize_nil in H2. rewrite <- Heq in H2.
      apply normalize_nil in H2. congruence. }
  by rewrite Hb, Heq.
Qed.

Lemma chunk_text_by_normal_form_witness :
  whitespace_normalized_form (txt "  a   b ") = whitespace_normalized_form (txt "a b") /\
  chunk_text settings 1 (txt "  a   b ") (Some 2) (Some 1)
  = chunk_text settings 1 (txt "a b") (Some 2) (Some 1).
Proof.
  assert (H : whitespace_normalized_form (txt "  a   b ")
              = whitespace_normalized_form (txt "a b")) by reflexivity.
  split; [exact H|].
  exact (chunk_text_by_normal_form settings 1 _ _ (Some 2) (Some 1) H).
Defined.

Lemma split_ws_clean s : Forall clean_word (split_ws s).
Proof.
  induction s as [|c r IH]; [constructor|].
  destruct (Py.isspace c) eqn:Hc.
  - simpl. by rewrite Hc.
  - rewrite split_ws_keep by done.
    destruct r as [|c' r']; [by repeat constructor|].
    destruct (Py.isspace c') eqn:Hc'.
    + constructor; [by repeat constructor|done].
    + destruct (split_ws (c' :: r')) as [|w ws]; [by repeat constructor|].
      inversion IH as [|? ? [Hne Hw] Hws]; subst.
      constructor; [|done]. split; [done|by constructor].
Qed.

(** Splitting a clean word followed by nothing or by whitespace. *)
Lemma split_ws_word w : forall rest,
  clean_word w ->
  (forall c, head rest = Some c -> Py.isspace c = true) ->
  split_ws (w ++ rest) = w :: split_ws rest.
Proof.
  induction w as [|c w IH]; intros rest [Hne Hw] Hrest; [done|].
  inversion Hw as [|? ? Hc Hw']; subst.
  simpl app. rewrite split_ws_keep by done.
  destruct w as [|c2 w2].
  - simpl. destruct rest as [|c' rest']; [done|].
    by rewrite (Hrest c').
  - inversion Hw' as [|? ? Hc2 _]; subst.
    rewrite IH; [|by split|done]. simpl. by rewrite Hc2.
Qed.

Lemma split_ws_join ws :
  Forall clean_word ws -> split_ws (join_space ws) = ws.
Proof.
  induction ws as [|w ws IH]; intros Hall; [done|].
  inversion Hall as [|? ? Hw Hws]; subst.
  rewrite join_space_cons.
  rewrite split_ws_word; [|done|].
  - destruct ws as [|w' ws']; [done|].
    change (split_ws (" "%char :: join_space (w' :: ws')))
      with (split_ws (join_space (w' :: ws'))).
    by rewrite IH.
  - destruct ws; [done|]. by intros c [= <-].
Qed.

(** X3.  Normalising whitespace twice is normalising once, and
    [chunk_text] returns the same chunks for a text and for its
    normalized form. *)
Theorem normalize_idempotent cfg fuel s max_chunk_size overlap :
  whitespace_normalized_form (whitespace_normalized_form s)
    = whitespace_normalized_form s /\
  chunk_text cfg fuel (whitespace_normalized_form s) max_chunk_size overlap
    = chunk_text cfg fuel s max_chunk_size overlap.
Proof.
  assert (H : whitespace_normalized_form (whitespace_normalized_form s)
              = whitespace_normalized_form s).
  { unfold whitespace_normalized_form.
    by rewrite split_ws_join by apply split_ws_clean. }
  split; [exact H|].
  rewrite <- !normalize_spec, !chunk_text_unfold.
  rewrite !normalize_spec, H.
  assert (Hb : is_blank (whitespace_normalized_form s) = is_blank s).
  { destruct (is_blank s) eqn:H2.
    - apply normalize_nil in H2. rewrite normalize_spec in H2. by rewrite H2.
    - destruct (is_blank (whitespace_normalized_form s)) eqn:H1; [|done].
      apply normalize_nil in H1. rewrite normalize_spec, H in H1.
      rewrite <- normalize_spec in H1. apply normalize_nil in H1. congruence. }
  by rewrite Hb.
Qed.

(** ** The chunker: nothing is lost when the scan advances *)

Lemma slice_elem {A} (l : list A) a b (j : nat) x :
  0 <= a <= Z.of_nat j -> Z.of_nat j < b ->
  l !! j = Some x -> x ∈ Py.slice l a b.
Proof.
  intros Ha Hb Hx. rewrite slice_nonneg by lia.
  pose proof (lookup_lt_Some _ _ _ Hx) as Hlt.
  apply list_elem_of_lookup. exists (j - Z.to_nat a)%nat.
  unfold len.
  rewrite lookup_take_lt by lia.
  rewrite lookup_drop. rewrite <- Hx. f_equal. lia.
Qed.

Lemma slice_whole {A} (l : list A) : Py.slice l 0 (len l) = l.
Proof.
  rewrite slice_nonneg by (pose proof (len_nonneg l); lia).
  unfold len. rewrite Z.min_id.
  replace (Z.min 0 (Z.of_nat (length l))) with 0 by lia.
  simpl. rewrite Z.sub_0_r, Nat2Z.id. apply firstn_all.
Qed.

Section Coverage.
Variable s : text.
Variables m o : Z.
Hypothesis m_pos : 0 < m.
Hypothesis o_nonneg : 0 <= o.
Hypothesis advances : advances_everywhere s m o = true.

(** Every window ends after its start. *)
Lemma window_end_after start : 0 <= start -> start < window_end s m start.
Proof.
  intros Hstart.
  destruct (Z.lt_ge_cases (start + m) (len s)) as [Hlt|Hge].
  - pose proof (window_end_inner s m start Hstart m_pos Hlt). lia.
  - rewrite window_end_final by lia. lia.
Qed.

(** From a start at or before position [j], a scan that returns has
    emitted the chunk of a window that contains [j], when the
    character at [j] is not whitespace. *)
Lemma scan_covers fuel : forall start chunks r (j : nat) c,
  0 <= start <= Z.of_nat j ->
  while_loop fuel s m o (start, chunks) = Some r ->
  s !! j = Some c -> Py.isspace c = false ->
  exists a b,
    0 <= a <= Z.of_nat j /\ Z.of_nat j < b /\
    Py.strip (Py.slice s a b) ∈ r.
Proof.
  induction fuel as [|fuel IH]; intros start chunks r j c Hstart; [done|].
  intros Hrun Hj Hc.
  pose proof (lookup_lt_Some _ _ _ Hj) as Hlt.
  rewrite while_loop_step in Hrun. simpl fst in Hrun.
  destruct (Z.ltb_spec start (len s)); [|unfold len in *; lia].
  unfold loop_body in Hrun.
  pose proof (window_end_after start (proj1 Hstart)) as Hafter.
  set (e := window_end s m start) in *.
  destruct (Z.lt_ge_cases (Z.of_nat j) e) as [Hin|Hout].
  - exists start, e. split; [done|]. split; [done|].
    assert (Hmem : c ∈ Py.slice s start e)
      by (apply (slice_elem s start e j c); [lia|lia|done]).
    pose proof (strip_nonempty _ c Hmem Hc) as Hne.
    destruct (Py.strip (Py.slice s start e)) as [|x l] eqn:Hchunk; [done|].
    cbn [Py.truthy] in Hrun.
    apply while_loop_extends in Hrun as [extra ->]. simpl snd.
    apply elem_of_app. left. apply elem_of_app. right. by left.
  - assert (He : e < len s) by (unfold len in *; lia).
    destruct (Z.ltb_spec e (len s)); [|lia].
    pose proof (advances_everywhere_spec s m o start advances) as Hadv.
    fold e in Hadv.
    eapply IH; [|exact Hrun|exact Hj|exact Hc]. lia.
Qed.

End Coverage.

(** X4.  When the scan advances at every window, no text is lost:
    every character of the whitespace-normalized text that is not
    whitespace lies in the window of a returned chunk. *)
Theorem chunk_text_covers cfg fuel s max_chunk_size overlap chunks
    (j : nat) c :
  let n := whitespace_normalized_form s in
  let m := Py.int_or max_chunk_size (MAX_CHUNK_SIZE cfg) in
  let o := Py.int_or overlap (CHUNK_OVERLAP cfg) in
  0 < m -> 0 <= o ->
  advances_everywhere n m o = true ->
  chunk_text cfg fuel s max_chunk_size overlap = Some chunks ->
  n !! j = Some c -> Py.isspace c = false ->
  exists a b,
    0 <= a <= Z.of_nat j /\ Z.of_nat j < b /\
    Py.strip (Py.slice n a b) ∈ chunks.
Proof.
  intros n m o Hm Ho Hadv Hrun Hj Hc. unfold n in *. clear n.
  rewrite <- normalize_spec in *.
  rewrite chunk_text_unfold in Hrun. fold m o in Hrun.
  pose proof (lookup_lt_Some _ _ _ Hj) as Hlt.
  destruct (is_blank s) eqn:Hb.
  { apply normalize_nil in Hb. rewrite Hb in Hj. done. }
  destruct (Z.leb_spec (len (normalize s)) m).
  - injection Hrun as <-. exists 0, (len (normalize s)).
    split; [lia|]. split; [unfold len; lia|].
    rewrite slice_whole. unfold normalize at 1.
    rewrite strip_idempotent. by left.
  - eapply (scan_covers (normalize s) m o Hm Ho Hadv fuel 0 []);
      [lia|exact Hrun|exact Hj|exact Hc].
Qed.

Lemma chunk_text_covers_witness :
  0 < 30 /\ 0 <= 5 /\
  advances_everywhere (whitespace_normalized_form four_sentences) 30 5 = true /\
  chunk_text settings 5 four_sentences (Some 30) (Some 5)
    = Some [txt "First sentence."; txt "ence. Second sentence.";
            txt "ence. Third sentence."; txt "ence. Fourth sentence."] /\
  whitespace_normalized_form four_sentences !! 20%nat = Some "n"%char /\
  Py.isspace "n" = false /\
  exists a b,
    0 <= a <= Z.of_nat 20 /\ Z.of_nat 20 < b /\
    Py.strip (Py.slice (whitespace_normalized_form four_sentences) a b)
      ∈ [txt "First sentence."; txt "ence. Second sentence.";
         txt "ence. Third sentence."; txt "ence. Fourth sentence."].
Proof.
  assert (H1 : advances_everywhere
                 (whitespace_normalized_form four_sentences) 30 5 = true)
    by by_vm.
  assert (H2 : chunk_text settings 5 four_sentences (Some 30) (Some 5)
    = Some [txt "First sentence."; txt "ence. Second sentence.";
            txt "ence. Third sentence."; txt "ence. Fourth sentence."])
    by by_vm.
  assert (H3 : whitespace_normalized_form four_sentences !! 20%nat
               = Some "n"%char) by by_vm.
  assert (H4 : Py.isspace "n" = false) by by_vm.
  split; [lia|]. split; [lia|]. split; [exact H1|]. split; [exact H2|].
  split; [exact H3|]. split; [exact H4|].
  apply (chunk_text_covers settings 5 four_sentences (Some 30) (Some 5) _
           20%nat "n"%char); [by vm_compute|by vm_compute|exact H1|exact H2
                             |exact H3|exact H4].
Defined.

(** ** Chunk identifiers *)

Lemma le_bytes_length n x : length (Hashlib.le_bytes n x) = n.
Proof.
  revert x. induction n as [|n IH]; intros x; [done|].
  simpl. by rewrite IH.
Qed.

Lemma md5_length data : length (Hashlib.md5 data) = 16%nat.
Proof.
  unfold Hashlib.md5.
  destruct (Hashlib.md5_blocks _ _ _) as [[[a b] c] d].
  by rewrite !length_app, !le_bytes_length.
Qed.

Lemma hexdigest_length digest :
  length (Hashlib.hexdigest digest) = (2 * length digest)%nat.
Proof.
  induction digest as [|b r IH]; [done|].
  unfold Hashlib.hexdigest in *. simpl. rewrite IH. lia.
Qed.

Lemma hex_digit_in n : Hashlib.hex_digit n ∈ hex_digits.
Proof.
  unfold Hashlib.hex_digit. generalize (N.to_nat n). intros k.
  do 16 (destruct k as [|k];
           [apply list_elem_of_In; cbv;
            repeat first [left; reflexivity|right]|]).
  apply list_elem_of_In. destruct k; cbv; by left.
Qed.

Lemma hexdigest_digits digest :
  Forall (fun c => c ∈ hex_digits) (Hashlib.hexdigest digest).
Proof.
  induction digest as [|b r IH]; [by constructor|].
  unfold Hashlib.hexdigest in *. simpl.
  constructor; [apply hex_digit_in|].
  constructor; [apply hex_digit_in|done].
Qed.

(** X5.  A chunk identifier is always 32 lower-case hexadecimal
    digits, whatever the path and the index. *)
Theorem generate_chunk_id_format file_path chunk_index :
  length (txt (ChunkId.generate_chunk_id file_path chunk_index)) = 32%nat /\
  Forall (fun c => c ∈ hex_digits)
    (txt (ChunkId.generate_chunk_id file_path chunk_index)).
Proof.
  unfold ChunkId.generate_chunk_id, txt.
  rewrite String.list_ascii_of_string_of_list_ascii.
  split; [|apply hexdigest_digits].
  by rewrite hexdigest_length, md5_length.
Qed.

(** ** The retry wrapper on arbitrary provider behaviour *)

Lemma wait_exponential_bounds n :
  2 <= Tenacity.wait_exponential 1 2 10 n <= 10.
Proof. unfold Tenacity.wait_exponential. lia. Qed.

Section RetryBounds.
Context {A : Type}.
Variable retry_on : exception -> bool.
Variable max_attempts : Z.
Variable wait : Z -> Z.
Variable fn : M A.
Variable calls : world -> nat.
Variables lo hi : Z.

Hypothesis fn_returns : forall w, exists r w', fn w = Some (r, w').
Hypothesis fn_counts :
  forall w r w', fn w = Some (r, w') -> calls w' = S (calls w).
Hypothesis fn_clock :
  forall w r w', fn w = Some (r, w') -> clock w' = clock w.
Hypothesis sleep_keeps :
  forall d w r w', time_sleep d w = Some (r, w') -> calls w' = calls w.
Hypothesis wait_bounds : forall n, lo <= wait n <= hi.

(** With [more] attempts left after this one the loop returns, after
    at least one and at most [more + 1] calls, and the time it slept
    lies between [lo] and [hi] per retry. *)
Lemma retrying_returns more : forall attempt_number w fuel,
  attempt_number + Z.of_nat more = Z.max attempt_number max_attempts ->
  (S more <= fuel)%nat ->
  exists r w',
    Tenacity.retrying fuel retry_on
      (Tenacity.stop_after_attempt max_attempts) wait fn attempt_number w
      = Some (r, w') /\
    (calls w < calls w' <= calls w + S more)%nat /\
    lo * (Z.of_nat (calls w') - Z.of_nat (calls w) - 1)
      <= clock w' - clock w
      <= hi * (Z.of_nat (calls w') - Z.of_nat (calls w) - 1).
Proof.
  induction more as [|more IH]; intros attempt_number w fuel Hleft Hfuel;
    (destruct fuel as [|fuel]; [lia|]);
    destruct (fn_returns w) as (r & w1 & Hcall);
    pose proof (fn_counts _ _ _ Hcall) as Hcount;
    pose proof (fn_clock _ _ _ Hcall) as Hclock;
    simpl; rewrite Hcall; unfold Tenacity.stop_after_attempt.
  - destruct r as [v|e].
    { exists (Ok v), w1. split; [done|]. rewrite Hcount, Hclock.
      split; lia. }
    destruct (retry_on e).
    + destruct (Z.geb_spec attempt_number max_attempts); [|lia].
      exists (Raise (RetryError e)), w1. split; [done|].
      rewrite Hcount, Hclock. split; lia.
    + exists (Raise e), w1. split; [done|].
      rewrite Hcount, Hclock. split; lia.
  - destruct r as [v|e].
    { exists (Ok v), w1. split; [done|]. rewrite Hcount, Hclock.
      split; lia. }
    destruct (retry_on e).
    + destruct (Z.geb_spec attempt_number max_attempts); [lia|].
      set (w2 := {| collection := collection w1;
                    trace := trace w1 ++ [Sleep (wait attempt_number)];
                    clock := clock w1 + wait attempt_number |}).
      destruct (IH (attempt_number + 1) w2 fuel)
        as (r' & w' & Hrun & Hcalls & Htime); [lia|lia|].
      exists r', w'. split; [done|].
      assert (Hc2 : calls w2 = calls w1)
        by apply (sleep_keeps (wait attempt_number) w1 (Ok tt) _ eq_refl).
      rewrite Hc2, Hcount in Hcalls, Htime.
      change (clock w2) with (clock w1 + wait attempt_number) in Htime.
      rewrite Hclock in Htime.
      pose proof (wait_bounds attempt_number) as Hw.
      split; [lia|]. 
      set (k := Z.of_nat (calls w') - Z.of_nat (S (calls w)) - 1) in *.
      replace (Z.of_nat (calls w') - Z.of_nat (calls w) - 1)
        with (k + 1) by lia.
      rewrite !Z.mul_add_distr_l, !Z.mul_1_r. lia.
    + exists (Raise e), w1. split; [done|].
      rewrite Hcount, Hclock. split; lia.
Qed.

End RetryBounds.

Section RetryRecovers.
Context {A : Type}.
Variable retry_on : exception -> bool.
Variable max_attempts : Z.
Variable wait : Z -> Z.
Variable fn : M A.
Variable calls : world -> nat.
Variable answers : nat -> result A.

Hypothesis fn_answers :
  forall w, exists w', fn w = Some (answers (calls w), w') /\
                       calls w' = S (calls w).
Hypothesis sleep_keeps :
  forall d w r w', time_sleep d w = Some (r, w') -> calls w' = calls w.

(** After [j] failures of the retried kind, a success is returned as
    it is, when the stop policy allows [j] retries. *)
Lemma retrying_recovers j : forall attempt_number w fuel v,
  (forall i, (i < j)%nat ->
     exists e, answers (calls w + i)%nat = Raise e /\ retry_on e = true) ->
  answers (calls w + j)%nat = Ok v ->
  (j = 0%nat \/ attempt_number + Z.of_nat j <= max_attempts) ->
  (S j <= fuel)%nat ->
  exists w',
    Tenacity.retrying fuel retry_on
      (Tenacity.stop_after_attempt max_attempts) wait fn attempt_number w
      = Some (Ok v, w') /\
    calls w' = (calls w + S j)%nat.
Proof.
  induction j as [|j IH]; intros attempt_number w fuel v Hfail Hok Hstop Hfuel;
    (destruct fuel as [|fuel]; [lia|]);
    destruct (fn_answers w) as (w1 & Hcall & Hcount);
    simpl; rewrite Hcall.
  - rewrite Nat.add_0_r in Hok. rewrite Hok. exists w1. split; [done|lia].
  - destruct (Hfail 0%nat) as (e & He & Hr); [lia|].
    rewrite Nat.add_0_r in He. rewrite He, Hr.
    unfold Tenacity.stop_after_attempt.
    destruct (Z.geb_spec attempt_number max_attempts); [lia|].
    set (w2 := {| collection := collection w1;
                  trace := trace w1 ++ [Sleep (wait attempt_number)];
                  clock := clock w1 + wait attempt_number |}).
    assert (Hc2 : calls w2 = S (calls w)).
    { rewrite <- Hcount.
      apply (sleep_keeps (wait attempt_number) w1 (Ok tt) _ eq_refl). }
    destruct (IH (attempt_number + 1) w2 fuel v) as (w' & Hrun & Hcalls).
    + intros i Hi. rewrite Hc2.
      destruct (Hfail (S i)) as (e' & He' & Hr'); [lia|].
      exists e'. split; [|done]. rewrite <- He'. f_equal. lia.
    + rewrite Hc2. rewrite <- Hok. f_equal. lia.
    + right. lia.
    + lia.
    + exists w'. split; [done|]. rewrite Hcalls, Hc2. lia.
Qed.

End RetryRecovers.

Lemma embeddings_create_call_clock E s w r w' :
  Embeddings.embeddings_create_call E s w = Some (r, w') ->
  clock w' = clock w.
Proof. by intros [= _ <-]. Qed.

Lemma chat_completions_call_clock E p w r w' :
  RagEngine.chat_completions_call E p w = Some (r, w') ->
  clock w' = clock w.
Proof. by intros [= _ <-]. Qed.

(** A decorated embedding call returns, after at least one and at most
    [max(1, MAX_RETRIES)] requests, sleeping between 2 and 10 seconds
    before each request after the first. *)
Lemma embedding_api_returns E s w fuel :
  (attempt_ceiling (MAX_RETRIES (cfg E)) <= fuel)%nat ->
  exists r w',
    Embeddings._call_embedding_api E fuel s w = Some (r, w') /\
    (embedding_calls w < embedding_calls w'
       <= embedding_calls w + attempt_ceiling (MAX_RETRIES (cfg E)))%nat /\
    2 * retries (embedding_calls w) (embedding_calls w')
      <= clock w' - clock w
      <= 10 * retries (embedding_calls w) (embedding_calls w').
Proof.
  intros Hfuel. unfold attempt_ceiling, retries in *.
  set (more := (Z.to_nat (Z.max 1 (MAX_RETRIES (cfg E))) - 1)%nat).
  replace (Z.to_nat (Z.max 1 (MAX_RETRIES (cfg E)))) with (S more) in *
    by (unfold more; lia).
  apply (retrying_returns _ _ _ _ embedding_calls 2 10).
  - intros w0. by eexists _, _.
  - apply embeddings_create_call_counts.
  - apply embeddings_create_call_clock.
  - apply embedding_calls_sleep.
  - apply wait_exponential_bounds.
  - unfold more. lia.
  - done.
Qed.

Lemma llm_api_returns E s w fuel :
  (attempt_ceiling (MAX_RETRIES (cfg E)) <= fuel)%nat ->
  exists r w',
    RagEngine._call_llm_api E fuel s w = Some (r, w') /\
    (llm_calls w < llm_calls w'
       <= llm_calls w + attempt_ceiling (MAX_RETRIES (cfg E)))%nat /\
    2 * retries (llm_calls w) (llm_calls w')
      <= clock w' - clock w
      <= 10 * retries (llm_calls w) (llm_calls w').
Proof.
  intros Hfuel. unfold attempt_ceiling, retries in *.
  set (more := (Z.to_nat (Z.max 1 (MAX_RETRIES (cfg E))) - 1)%nat).
  replace (Z.to_nat (Z.max 1 (MAX_RETRIES (cfg E)))) with (S more) in *
    by (unfold more; lia).
  apply (retrying_returns _ _ _ _ llm_calls 2 10).
  - intros w0. by eexists _, _.
  - apply chat_completions_call_counts.
  - apply chat_completions_call_clock.
  - apply llm_calls_sleep.
  - apply wait_exponential_bounds.
  - unfold more. lia.
  - done.
Qed.

(** X6.  Whatever the provider answers, a decorated provider call
    returns once the fuel covers the attempts the stop policy allows:
    it makes at least one and at most [max(1, MAX_RETRIES)] requests,
    and sleeps between 2 and 10 seconds before each request after the
    first. *)
Theorem provider_call_returns E s w fuel :
  (attempt_ceiling (MAX_RETRIES (cfg E)) <= fuel)%nat ->
  (exists r w',
     Embeddings._call_embedding_api E fuel s w = Some (r, w') /\
     (embedding_calls w < embedding_calls w'
        <= embedding_calls w + attempt_ceiling (MAX_RETRIES (cfg E)))%nat /\
     2 * retries (embedding_calls w) (embedding_calls w')
       <= clock w' - clock w
       <= 10 * retries (embedding_calls w) (embedding_calls w')) /\
  (exists r w',
     RagEngine._call_llm_api E fuel s w = Some (r, w') /\
     (llm_calls w < llm_calls w'
        <= llm_calls w + attempt_ceiling (MAX_RETRIES (cfg E)))%nat /\
     2 * retries (llm_calls w) (llm_calls w')
       <= clock w' - clock w
       <= 10 * retries (llm_calls w) (llm_calls w')).
Proof.
  intros Hfuel. split.
  - by apply embedding_api_returns.
  - by apply llm_api_returns.
Qed.

Lemma provider_call_returns_witness :
  (attempt_ceiling (MAX_RETRIES (cfg recovering_env)) <= 3)%nat /\
  exists r w',
    Embeddings._call_embedding_api recovering_env 3 (txt "hello") empty_world
      = Some (r, w') /\
    (embedding_calls empty_world < embedding_calls w'
       <= embedding_calls empty_world
          + attempt_ceiling (MAX_RETRIES (cfg recovering_env)))%nat /\
    2 * retries (embedding_calls empty_world) (embedding_calls w')
      <= clock w' - clock empty_world
      <= 10 * retries (embedding_calls empty_world) (embedding_calls w').
Proof.
  assert (Hfuel : (attempt_ceiling (MAX_RETRIES (cfg recovering_env)) <= 3)%nat)
    by (vm_compute; lia).
  split; [exact Hfuel|].
  apply (provider_call_returns recovering_env (txt "hello") empty_world 3 Hfuel).
Defined.

(** X7.  A provider that fails [j] times with retried errors and then
    answers is asked [j + 1] times and its answer is returned, when
    [j] is below the number of attempts the stop policy allows; the
    store is not touched. *)
Theorem provider_call_recovers E s w fuel (j : nat) :
  (j < attempt_ceiling (MAX_RETRIES (cfg E)))%nat ->
  (S j <= fuel)%nat ->
  (forall v,
     fails_from (fun k => embeddings_create E k s)
       [RateLimitError; APIError] (embedding_calls w) j ->
     embeddings_create E (embedding_calls w + j) s = Ok v ->
     exists w',
       Embeddings._call_embedding_api E fuel s w = Some (Ok v, w') /\
       embedding_calls w' = (embedding_calls w + S j)%nat /\
       collection w' = collection w) /\
  (forall v,
     fails_from (fun k => chat_completions_create E k s)
       [RateLimitError; APIError; Timeout] (llm_calls w) j ->
     chat_completions_create E (llm_calls w + j) s = Ok v ->
     exists w',
       RagEngine._call_llm_api E fuel s w = Some (Ok v, w') /\
       llm_calls w' = (llm_calls w + S j)%nat /\
       collection w' = collection w).
Proof.
  intros Hj Hfuel. unfold attempt_ceiling in Hj.
  assert (Hstop : j = 0%nat \/ 1 + Z.of_nat j <= MAX_RETRIES (cfg E)) by lia.
  split; intros v Hfail Hok.
  - destruct (retrying_recovers
                (Tenacity.retry_if_exception_type [RateLimitError; APIError])
                (MAX_RETRIES (cfg E)) (Tenacity.wait_exponential 1 2 10)
                (Embeddings.embeddings_create_call E s) embedding_calls
                (fun k => embeddings_create E k s)) with (j := j)
        (attempt_number := 1) (w := w) (fuel := fuel) (v := v)
      as (w' & Hrun & Hcalls); try done.
    + intros w0. eexists. split; [reflexivity|].
      rewrite embedding_calls_record. simpl. lia.
    + apply embedding_calls_sleep.
    + exists w'. split; [exact Hrun|]. split; [done|].
      eapply (retrying_preserves _ _ _ _ collection); [| |exact Hrun].
      * by intros w0 r w1 [= _ <-].
      * apply collection_sleep.
  - destruct (retrying_recovers
                (Tenacity.retry_if_exception_type
                   [RateLimitError; APIError; Timeout])
                (MAX_RETRIES (cfg E)) (Tenacity.wait_exponential 1 2 10)
                (RagEngine.chat_completions_call E s) llm_calls
                (fun k => chat_completions_create E k s)) with (j := j)
        (attempt_number := 1) (w := w) (fuel := fuel) (v := v)
      as (w' & Hrun & Hcalls); try done.
    + intros w0. eexists. split; [reflexivity|].
      rewrite llm_calls_record. simpl. lia.
    + apply llm_calls_sleep.
    + exists w'. split; [exact Hrun|]. split; [done|].
      eapply (retrying_preserves _ _ _ _ collection); [| |exact Hrun].
      * by intros w0 r w1 [= _ <-].
      * apply collection_sleep.
Qed.

Lemma provider_call_recovers_witness :
  (2 < attempt_ceiling (MAX_RETRIES (cfg recovering_env)))%nat /\
  (3 <= 3)%nat /\
  fails_from (fun k => embeddings_create recovering_env k (txt "hello"))
    [RateLimitError; APIError] (embedding_calls empty_world) 2 /\
  embeddings_create recovering_env (embedding_calls empty_world + 2)
    (txt "hello") = Ok [5] /\
  exists w',
    Embeddings._call_embedding_api recovering_env 3 (txt "hello") empty_world
      = Some (Ok [5], w') /\
    embedding_calls w' = (embedding_calls empty_world + 3)%nat /\
    collection w' = collection empty_world.
Proof.
  assert (Hj : (2 < attempt_ceiling (MAX_RETRIES (cfg recovering_env)))%nat)
    by (vm_compute; lia).
  assert (Hfail : fails_from
            (fun k => embeddings_create recovering_env k (txt "hello"))
            [RateLimitError; APIError] (embedding_calls empty_world) 2).
  { intros i Hi. exists rate_limit_error.
    destruct i as [|[|i]]; [by vm_compute|by vm_compute|lia]. }
  assert (Hok : embeddings_create recovering_env
                  (embedding_calls empty_world + 2) (txt "hello") = Ok [5])
    by by vm_compute.
  split; [exact Hj|]. split; [lia|]. split; [exact Hfail|].
  split; [exact Hok|].
  apply (proj1 (provider_call_recovers recovering_env (txt "hello")
                  empty_world 3 2 Hj (le_n 3)) [5] Hfail Hok).
Defined.

(** ** Blank questions and texts *)

(** X8.  A text that is empty or only whitespace is rejected with
    [ValueError] before anything is requested: by [get_embedding], and
    so by [retrieve] and [query] for a blank question.  The store, the
    trace and the clock are as before. *)
Theorem blank_text_rejected E fuel s top_k filter_criteria w :
  is_blank s = true ->
  let e := ValueError "Cannot generate embedding for empty text" in
  Embeddings.get_embedding E fuel s w = Some (Raise e, w) /\
  RagEngine.retrieve E fuel s top_k filter_criteria w = Some (Raise e, w) /\
  RagEngine.query E fuel s top_k filter_criteria w = Some (Raise e, w).
Proof.
  intros Hb e. apply strip_blank in Hb.
  assert (H1 : Embeddings.get_embedding E fuel s w = Some (Raise e, w)).
  { unfold Embeddings.get_embedding. rewrite Hb. simpl.
    by rewrite orb_true_r. }
  assert (H2 : RagEngine.retrieve E fuel s top_k filter_criteria w
               = Some (Raise e, w)).
  { unfold RagEngine.retrieve, bind. by rewrite H1. }
  split; [done|]. split; [done|].
  unfold RagEngine.query, bind, time_time. by rewrite H2.
Qed.

Lemma blank_text_rejected_witness :
  is_blank (txt "   ") = true /\
  RagEngine.query quiet_env 3 (txt "   ") None None empty_world
    = Some (Raise (ValueError "Cannot generate embedding for empty text"),
            empty_world).
Proof.
  assert (Hb : is_blank (txt "   ") = true) by by vm_compute.
  split; [exact Hb|].
  apply (blank_text_rejected quiet_env 3 (txt "   ") None None empty_world Hb).
Defined.

(** ** Batch embeddings *)

Lemma slice_app {A} (l : list A) x y z :
  0 <= x <= y -> y <= z ->
  Py.slice l x y ++ Py.slice l y z = Py.slice l x z.
Proof.
  intros Hxy Hyz. rewrite !slice_nonneg by lia.
  pose proof (len_nonneg l) as Hn.
  replace (drop (Z.to_nat (Z.min y (len l))) l)
    with (drop (Z.to_nat (Z.min y (len l) - Z.min x (len l)))
            (drop (Z.to_nat (Z.min x (len l))) l))
    by (rewrite drop_drop; f_equal; lia).
  rewrite take_take_drop. f_equal. lia.
Qed.

Lemma slice_empty {A} (l : list A) x : 0 <= x -> Py.slice l x x = [].
Proof.
  intros Hx. rewrite slice_nonneg by lia.
  by rewrite Z.sub_diag.
Qed.

Lemma slice_from_start {A} (l : list A) z :
  len l <= z -> Py.slice l 0 z = l.
Proof.
  intros Hz. pose proof (len_nonneg l) as Hn.
  rewrite slice_nonneg by lia.
  replace (Z.min z (len l)) with (len l) by lia.
  replace (Z.min 0 (len l)) with 0 by lia.
  simpl. rewrite Z.sub_0_r. unfold len. rewrite Nat2Z.id.
  apply firstn_all.
Qed.

Section BatchLoop.
Variable backend : nat -> list text -> result (list embedding).
Variable f : text -> embedding.
Hypothesis backend_embeds : forall k batch, backend k batch = Ok (f <$> batch).
Variable texts : list text.
Variable b : Z.
Hypothesis b_pos : 0 < b.

(** [c] consecutive batches from batch number [a] embed the texts of
    their windows, in order, with one request each. *)
Lemma batch_loop_all c : forall a acc calls,
  EmbeddingsBatch.batch_loop backend texts b
    ((fun j => 0 + Z.of_nat j * b) <$> seq a c) acc calls
  = (Ok (acc ++ (f <$> Py.slice texts (Z.of_nat a * b) (Z.of_nat (a + c) * b))),
     (calls + c)%nat).
Proof.
  induction c as [|c IH]; intros a acc calls; csimpl.
  - rewrite Nat.add_0_r, slice_empty by nia. csimpl.
    by rewrite app_nil_r, Nat.add_0_r.
  - rewrite backend_embeds, IH. f_equal; [|lia]. f_equal.
    rewrite <- app_assoc, <- fmap_app. do 2 f_equal.
    replace (0 + Z.of_nat a * b + b) with (Z.of_nat (S a) * b) by lia.
    replace (0 + Z.of_nat a * b) with (Z.of_nat a * b) by lia.
    replace (Z.of_nat (a + S c)) with (Z.of_nat (S a + c)) by lia.
    apply slice_app; nia.
Qed.

End BatchLoop.

(** X9.  With a positive batch size and a backend that answers every
    request with one vector per text, [get_embeddings_batch] returns
    the vectors of all texts in the order of the texts, and makes one
    request per batch. *)
Theorem get_embeddings_batch_all backend (f : text -> embedding)
    texts batch_size calls :
  0 < batch_size ->
  (forall k batch, backend k batch = Ok (f <$> batch)) ->
  EmbeddingsBatch.get_embeddings_batch backend texts batch_size calls
    = (Ok (f <$> texts), (calls + batches (length texts) batch_size)%nat).
Proof.
  intros Hb Hbackend. unfold EmbeddingsBatch.get_embeddings_batch, batches.
  destruct texts as [|s texts].
  { simpl. rewrite Z.div_small by lia. simpl. by rewrite Nat.add_0_r. }
  cbn [Py.truthy negb]. unfold Builtins.range.
  set (n := len (s :: texts)).
  assert (Hn : 0 < n) by (unfold n, len; simpl; lia).
  destruct (Z.eqb_spec batch_size 0); [lia|].
  destruct (Z.ltb_spec 0 batch_size); [|lia].
  destruct (Z.ltb_spec 0 n); [|lia].
  assert (Hcount : (n - 0 - 1) / batch_size + 1
                   = (Z.of_nat (length (s :: texts)) + batch_size - 1)
                     / batch_size).
  { fold (len (s :: texts)). fold n.
    replace (n + batch_size - 1) with (n - 0 - 1 + 1 * batch_size) by lia.
    rewrite Z.div_add by lia. lia. }
  rewrite Hcount. fold (len (s :: texts)). fold n.
  set (c := Z.to_nat ((n + batch_size - 1) / batch_size)).
  rewrite (batch_loop_all backend f Hbackend (s :: texts) batch_size Hb c 0).
  f_equal. csimpl. f_equal.
  assert (Hc : n <= Z.of_nat c * batch_size).
  { unfold c. rewrite Z2Nat.id by (apply Z.div_pos; lia).
    pose proof (Z.div_mod (n + batch_size - 1) batch_size ltac:(lia)) as Hd.
    pose proof (Z.mod_pos_bound (n + batch_size - 1) batch_size Hb) as Hm.
    lia. }
  change (Z.of_nat 0 * batch_size) with 0.
  change (0 + c)%nat with c.
  by rewrite slice_from_start.
Qed.

Lemma get_embeddings_batch_all_witness :
  0 < 2 /\
  (forall k batch, length_backend k batch = Ok ((fun s => [len s]) <$> batch)) /\
  EmbeddingsBatch.get_embeddings_batch length_backend three_texts 2 0
    = (Ok ((fun s => [len s]) <$> three_texts),
       (0 + batches (length three_texts) 2)%nat).
Proof.
  split; [lia|]. split; [done|].
  apply (get_embeddings_batch_all length_backend (fun s => [len s])
           three_texts 2 0); [lia|done].
Defined.

(** X10.  A batch size of zero makes [get_embeddings_batch] raise the
    [ValueError] of [range], and a negative one makes it return no
    vector at all; no request is made either way. *)
Theorem get_embeddings_batch_bad_size backend texts batch_size calls :
  texts <> [] -> batch_size <= 0 ->
  EmbeddingsBatch.get_embeddings_batch backend texts batch_size calls
    = (if batch_size =? 0
       then Raise (ValueError "range() arg 3 must not be zero")
       else Ok [],
       calls).
Proof.
  intros Hne Hb. unfold EmbeddingsBatch.get_embeddings_batch.
  destruct texts as [|s texts]; [done|].
  cbn [Py.truthy negb]. unfold Builtins.range.
  destruct (Z.eqb_spec batch_size 0); [done|].
  destruct (Z.ltb_spec 0 batch_size); [lia|].
  pose proof (len_nonneg (s :: texts)).
  by destruct (Z.ltb_spec (len (s :: texts)) 0); [lia|].
Qed.

Lemma get_embeddings_batch_bad_size_witness :
  three_texts <> [] /\ -1 <= 0 /\
  EmbeddingsBatch.get_embeddings_batch length_backend three_texts (-1) 0
    = (Ok [], 0%nat).
Proof.
  split; [done|]. split; [lia|].
  apply (get_embeddings_batch_bad_size length_backend three_texts (-1) 0);
    [done|lia].
Defined.

(** ** The store: writes seen by reads *)

(** X11.  A record written by [upsert_document] is what [get_document]
    returns for its identifier: the text, the vector, the metadata (or
    none) and the time of the write replace whatever was stored
    before; every other identifier reads as before the write. *)
Theorem upsert_then_get E id s emb meta w id' w' other :
  Db.upsert_document E id s emb meta w = Some (Ok id', w') ->
  mongo_fault E (mongo_calls w') = None ->
  DbRead.get_document E id w'
    = Some (Ok (Some {| doc_id := id; doc_text := s; doc_embedding := emb;
                        doc_metadata := get meta ∅;
                        created_at := clock w |}), w') /\
  (other <> id ->
   DbRead.get_document E other w' = Some (Ok (collection w !! other), w')).
Proof.
  unfold Db.upsert_document, DbRead.get_document.
  destruct (mongo_fault E (mongo_calls w)); intros [= <- <-] Hok.
  rewrite Hok. simpl. split.
  - by rewrite lookup_insert_eq.
  - intros Hne. by rewrite lookup_insert_ne.
Qed.

Lemma upsert_then_get_witness :
  Db.upsert_document quiet_env "a" (txt "new") [3] None two_records_world
    = Some (Ok "a",
            {| collection :=
                 <["a" := {| doc_id := "a"; doc_text := txt "new";
                             doc_embedding := [3]; doc_metadata := ∅;
                             created_at := 0 |}]> two_records;
               trace := [ReplaceOne "a"]; clock := 0 |}) /\
  DbRead.get_document quiet_env "a"
    {| collection :=
         <["a" := {| doc_id := "a"; doc_text := txt "new";
                     doc_embedding := [3]; doc_metadata := ∅;
                     created_at := 0 |}]> two_records;
       trace := [ReplaceOne "a"]; clock := 0 |}
    = Some (Ok (Some {| doc_id := "a"; doc_text := txt "new";
                        doc_embedding := [3]; doc_metadata := ∅;
                        created_at := 0 |}),
            {| collection :=
                 <["a" := {| doc_id := "a"; doc_text := txt "new";
                             doc_embedding := [3]; doc_metadata := ∅;
                             created_at := 0 |}]> two_records;
               trace := [ReplaceOne "a"]; clock := 0 |}).
Proof.
  assert (H : Db.upsert_document quiet_env "a" (txt "new") [3] None
                two_records_world
    = Some (Ok "a",
            {| collection :=
                 <["a" := {| doc_id := "a"; doc_text := txt "new";
                             doc_embedding := [3]; doc_metadata := ∅;
                             created_at := 0 |}]> two_records;
               trace := [ReplaceOne "a"]; clock := 0 |})) by reflexivity.
  split; [exact H|].
  apply (upsert_then_get quiet_env "a" (txt "new") [3] None two_records_world
           "a" _ "b" H eq_refl).
Defined.

Lemma count_all (coll : gmap string IndexedDocument) :
  filter (fun kr => Db.matches (get None []) (Db.document_of (snd kr)) = true)
    coll = coll.
Proof. by apply map_filter_id. Qed.

(** X12.  Counting all documents after a successful [upsert_document]
    gives one more than before when the identifier is new, and the
    same number when it replaces a record. *)
Theorem count_after_upsert E id s emb meta w id' w' :
  Db.upsert_document E id s emb meta w = Some (Ok id', w') ->
  mongo_fault E (mongo_calls w') = None ->
  exists n,
    DbRead.count_documents E None w = Some (Ok n, w) /\
    DbRead.count_documents E None w'
      = Some (Ok (match collection w !! id with
                  | Some _ => n
                  | None => n + 1
                  end), w').
Proof.
  unfold Db.upsert_document, DbRead.count_documents.
  destruct (mongo_fault E (mongo_calls w)) eqn:Hw; intros [= <- <-] Hok.
  rewrite Hok. eexists. split; [reflexivity|].
  rewrite !count_all. cbn [collection]. rewrite map_size_insert.
  do 3 f_equal. destruct (collection w !! id); simpl; lia.
Qed.

Lemma count_after_upsert_witness :
  exists n,
    DbRead.count_documents quiet_env None two_records_world
      = Some (Ok n, two_records_world) /\
    DbRead.count_documents quiet_env None
      {| collection :=
           <["c" := {| doc_id := "c"; doc_text := txt "new";
                       doc_embedding := [3]; doc_metadata := ∅;
                       created_at := 0 |}]> two_records;
         trace := [ReplaceOne "c"]; clock := 0 |}
      = Some (Ok (match collection two_records_world !! "c" with
                  | Some _ => n
                  | None => n + 1
                  end),
              {| collection :=
                   <["c" := {| doc_id := "c"; doc_text := txt "new";
                               doc_embedding := [3]; doc_metadata := ∅;
                               created_at := 0 |}]> two_records;
                 trace := [ReplaceOne "c"]; clock := 0 |}).
Proof.
  apply (count_after_upsert quiet_env "c" (txt "new") [3] None
           two_records_world "c" _ eq_refl eq_refl).
Defined.

(** ** The shape of a search result *)










Section SearchShape.
Variable sim : embedding -> embedding -> Z.
Variable coll : gmap string IndexedDocument.
Variable q : embedding.
Variable k : Z.


End SearchShape.



(** ** Queries return and only read *)

Lemma mongo_calls_record e w :
  mongo_calls (record_event e w) =
  (mongo_calls w + if is_mongo_call e then 1 else 0)%nat.
Proof.
  unfold mongo_calls, record_event. simpl.
  rewrite filter_app, length_app. f_equal.
  by destruct e.
Qed.


Lemma get_embedding_returns E fuel s w :
  (attempt_ceiling (MAX_RETRIES (cfg E)) <= fuel)%nat ->
  exists r w',
    Embeddings.get_embedding E fuel s w = Some (r, w') /\
    (embedding_calls w' <= embedding_calls w
                           + attempt_ceiling (MAX_RETRIES (cfg E)))%nat.
Proof.
  intros Hfuel. unfold Embeddings.get_embedding.
  destruct (negb (Py.truthy s) || negb (Py.truthy (Py.strip s))).
  - eexists _, w. split; [reflexivity|lia].
  - destruct (embedding_api_returns E s w fuel Hfuel)
      as (r & w' & Hrun & Hcalls & _).
    exists r, w'. split; [done|lia].
Qed.




(** X15.  With providers and a store that answer at once, [query] is
    the composition of its steps: one embedding request for the
    question, one search with the pipeline for that vector, one
    generation request for the prompt built from the documents found;
    the answer is the completion, the sources are the documents found
    in their order, and the latency is zero on a clock that only
    sleeping advances. *)
Theorem query_answers E fuel question top_k filter_criteria w v d docs a :
  let k := Py.int_or top_k (TOP_K_RESULTS (cfg E)) in
  let pipeline := Db.knn_pipeline v k filter_criteria in
  let prompt := RagEngine.build_prompt (tiktoken E) question (d :: docs) 3000 in
  is_blank question = false ->
  embeddings_create E (embedding_calls w) question = Ok v ->
  mongo_fault E (mongo_calls w) = None ->
  Db.aggregate (similarity E) (collection w) pipeline = d :: docs ->
  chat_completions_create E (llm_calls w) prompt = Ok a ->
  RagEngine.query E (S fuel) question top_k filter_criteria w
    = Some (Ok {| RagEngine.answer := a;
                  RagEngine.sources := source_of <$> (d :: docs);
                  RagEngine.latency_ms := 0 |},
            {| collection := collection w;
               trace := trace w ++ [EmbeddingsCreate question;
                                    Aggregate pipeline;
                                    ChatCompletionsCreate prompt];
               clock := clock w |}).
Proof.
  intros k pipeline prompt Hq Hemb Hfault Hdocs Hllm.
  assert (Hguard : negb (Py.truthy question)
                   || negb (Py.truthy (Py.strip question)) = false).
  { destruct (Py.strip question) as [|c1 q1] eqn:Es.
    - apply strip_blank in Es. congruence.
    - destruct question; [done|reflexivity]. }
  set (w1 := record_event (EmbeddingsCreate question) w).
  set (w2 := record_event (Aggregate pipeline) w1).
  assert (H1 : Embeddings.get_embedding E (S fuel) question w
               = Some (Ok v, w1)).
  { unfold Embeddings.get_embedding. rewrite Hguard.
    apply retrying_success.
    unfold Embeddings.embeddings_create_call. by rewrite Hemb. }
  assert (H2 : RagEngine.retrieve E (S fuel) question top_k filter_criteria w
               = Some (Ok (d :: docs), w2)).
  { unfold RagEngine.retrieve, bind. rewrite H1. fold k.
    unfold Db.mongo_knn_search. fold pipeline. unfold w1 at 1.
    rewrite mongo_calls_record. cbn [is_mongo_call].
    rewrite Nat.add_0_r, Hfault.
    change (collection w1) with (collection w). by rewrite Hdocs. }
  assert (H3 : RagEngine.call_llm E (S fuel) prompt w2
               = Some (Ok a, record_event (ChatCompletionsCreate prompt) w2)).
  { apply retrying_success. unfold RagEngine.chat_completions_call.
    unfold w2 at 1, w1 at 1. rewrite !llm_calls_record. cbn [is_llm_call].
    by rewrite !Nat.add_0_r, Hllm. }
  unfold RagEngine.query, bind, time_time. rewrite H2.
  cbn [Py.truthy negb]. fold prompt. rewrite H3.
  unfold ret, record_event, w2, w1, record_event. cbn [trace collection clock].
  rewrite Z.sub_diag. cbn [Z.mul]. rewrite <- !app_assoc. reflexivity.
Qed.

Lemma query_answers_witness :
  exists d a,
    let pipeline := Db.knn_pipeline [10] 1 None in
    let prompt := RagEngine.build_prompt Unavailable question [d] 3000 in
    RagEngine.query quiet_env 1 question (Some 1) None two_records_world
      = Some (Ok {| RagEngine.answer := a;
                    RagEngine.sources := source_of <$> [d];
                    RagEngine.latency_ms := 0 |},
              {| collection := two_records;
                 trace := [EmbeddingsCreate question;
                           Aggregate pipeline;
                           ChatCompletionsCreate prompt];
                 clock := 0 |}).
Proof.
  exists (hit_of (similarity quiet_env) [10] record_a), (txt "An answer.").
  apply (query_answers quiet_env 0 question (Some 1) None two_records_world
           [10] (hit_of (similarity quiet_env) [10] record_a) []
           (txt "An answer.")); by_vm.
Defined.

(** ** Ingestion: what is refused, and what the store can gain *)

(** X16.  [ingest_file] refuses a path that does not exist with
    [FileNotFoundError], a file of an unsupported type with
    [ValueError], and a file whose text cannot be extracted with the
    error of the parser; in each case nothing has been requested or
    written. *)
Theorem ingest_file_rejects E fuel file_path meta w :
  (path_exists E file_path = false ->
   IngestionPipeline.ingest_file E fuel file_path meta w
     = Some (Raise (FileNotFoundError
                      (String.append "File not found: " file_path)), w)) /\
  (path_exists E file_path = true ->
   path_suffix E file_path ∉ IngestionPipeline.supported_extensions ->
   IngestionPipeline.ingest_file E fuel file_path meta w
     = Some (Raise (ValueError
                      (String.append "Unsupported file type: "
                         (path_suffix E file_path))), w)) /\
  (forall e,
     path_exists E file_path = true ->
     path_suffix E file_path ∈ IngestionPipeline.supported_extensions ->
     extract_text E file_path = Raise e ->
     IngestionPipeline.ingest_file E fuel file_path meta w
       = Some (Raise e, w)).
Proof.
  unfold IngestionPipeline.ingest_file, IngestionPipeline.parse_file, bind.
  split; [|split].
  - by intros ->.
  - intros -> Hsuf. cbn [negb]. by rewrite bool_decide_eq_false_2.
  - intros e -> Hsuf He. cbn [negb]. rewrite bool_decide_eq_true_2 by done.
    by rewrite He.
Qed.

Lemma ingest_file_rejects_witness :
  path_exists recovering_env "missing.txt" = false /\
  IngestionPipeline.ingest_file recovering_env 3 "missing.txt" None empty_world
    = Some (Raise (FileNotFoundError "File not found: missing.txt"),
            empty_world) /\
  path_exists recovering_env "notes.docx" = true /\
  (path_suffix recovering_env "notes.docx"
     ∉ IngestionPipeline.supported_extensions) /\
  IngestionPipeline.ingest_file recovering_env 3 "notes.docx" None empty_world
    = Some (Raise (ValueError "Unsupported file type: .docx"), empty_world).
Proof.
  assert (H1 : path_exists recovering_env "missing.txt" = false)
    by by vm_compute.
  assert (H2 : path_exists recovering_env "notes.docx" = true)
    by by vm_compute.
  assert (H3 : path_suffix recovering_env "notes.docx"
               ∉ IngestionPipeline.supported_extensions).
  { apply (bool_decide_unpack _). by vm_compute. }
  split; [exact H1|]. split.
  { apply (proj1 (ingest_file_rejects recovering_env 3 "missing.txt" None
                    empty_world) H1). }
  split; [exact H2|]. split; [exact H3|].
  apply (proj1 (proj2 (ingest_file_rejects recovering_env 3 "notes.docx" None
                         empty_world)) H2 H3).
Defined.

(** The loop over the chunks, whatever its outcome, leaves every
    record outside the identifiers of its chunks as it was, and
    removes none. *)
Lemma ingest_chunks_frame E fuel path meta total chunks :
  forall i ids w r w',
    IngestionPipeline.ingest_chunks E fuel path meta total i chunks ids w
      = Some (r, w') ->
    (forall id, id ∉ chunk_ids_from path i (length chunks) ->
                collection w' !! id = collection w !! id) /\
    dom (collection w) ⊆ dom (collection w').
Proof.
  induction chunks as [|chunk rest IH]; intros i ids w r w'; simpl.
  - by intros [= <- <-].
  - unfold bind.
    destruct (Embeddings.get_embedding E fuel chunk w)
      as [[[emb|e] w1]|] eqn:Hemb; [| |done].
    + pose proof (get_embedding_collection _ _ _ _ _ _ Hemb) as Hcoll.
      unfold Db.upsert_document at 1.
      destruct (mongo_fault E (mongo_calls w1)).
      * intros [= <- <-]. simpl. by rewrite Hcoll.
      * intros Hrest. apply IH in Hrest as [Hout Hdom]. simpl in Hout, Hdom.
        rewrite dom_insert_L, Hcoll in Hdom. split; [|set_solver].
        intros id Hid. apply not_elem_of_cons in Hid as [Hne Hid].
        rewrite (Hout id Hid), lookup_insert_ne by done. by rewrite Hcoll.
    + intros [= <- <-].
      by rewrite (get_embedding_collection _ _ _ _ _ _ Hemb).
Qed.

(** The same for a whole file. *)
Lemma ingest_file_outside E fuel file_path meta w r w' :
  IngestionPipeline.ingest_file E fuel file_path meta w = Some (r, w') ->
  (forall id,
     id ∉ chunk_ids_from file_path 0
            (length (chunks_of_file E fuel file_path)) ->
     collection w' !! id = collection w !! id) /\
  dom (collection w) ⊆ dom (collection w').
Proof.
  unfold IngestionPipeline.ingest_file, chunks_of_file.
  destruct (path_exists E file_path); simpl negb; cbv iota;
    [|by intros [= <- <-]].
  unfold bind, IngestionPipeline.parse_file.
  destruct (bool_decide (path_suffix E file_path
                         ∈ IngestionPipeline.supported_extensions));
    [|by intros [= <- <-]].
  destruct (extract_text E file_path) as [s|e]; [|by intros [= <- <-]].
  destruct (negb (Py.truthy (Py.strip s))); [by intros [= <- <-]|].
  destruct (chunk_text (cfg E) fuel s None None) as [chunks|]; [|done].
  destruct chunks as [|c chunks]; [by intros [= <- <-]|].
  cbn [Py.truthy negb]. apply ingest_chunks_frame.
Qed.

(** X17.  Whatever the outcome of [ingest_file], success or an
    exception part of the way, every record whose identifier is not
    one of this file's chunk identifiers is as it was, and no record
    has been removed. *)
Theorem ingest_file_frame E fuel file_path meta w r w' :
  IngestionPipeline.ingest_file E fuel file_path meta w = Some (r, w') ->
  (forall id,
     id ∉ chunk_ids_from file_path 0
            (length (chunks_of_file E fuel file_path)) ->
     collection w' !! id = collection w !! id) /\
  dom (collection w) ⊆ dom (collection w').
Proof. apply ingest_file_outside. Qed.

Lemma ingest_file_frame_witness :
  exists r w',
    IngestionPipeline.ingest_file quiet_env 3 "docs/a.txt" None
      two_records_world = Some (r, w') /\
    (forall id,
       id ∉ chunk_ids_from "docs/a.txt" 0
              (length (chunks_of_file quiet_env 3 "docs/a.txt")) ->
       collection w' !! id = collection two_records_world !! id) /\
    dom (collection two_records_world) ⊆ dom (collection w').
Proof.
  destruct (IngestionPipeline.ingest_file quiet_env 3 "docs/a.txt" None
              two_records_world) as [[r w']|] eqn:H;
    [|vm_compute in H; discriminate H].
  exists r, w'. split; [reflexivity|].
  apply (ingest_file_frame quiet_env 3 "docs/a.txt" None
           two_records_world r w' H).
Defined.

(** ** Ingestion returns *)

Lemma ingest_chunks_returns E fuel path meta total chunks :
  (attempt_ceiling (MAX_RETRIES (cfg E)) <= fuel)%nat ->
  forall i ids w, exists r w',
    IngestionPipeline.ingest_chunks E fuel path meta total i chunks ids w
      = Some (r, w').
Proof.
  intros Hfuel.
  induction chunks as [|chunk rest IH]; intros i ids w; simpl.
  - by eexists _, _.
  - unfold bind.
    destruct (get_embedding_returns E fuel chunk w Hfuel)
      as ([emb|e] & w1 & -> & _); [|by eexists _, _].
    unfold Db.upsert_document at 1.
    destruct (mongo_fault E (mongo_calls w1)); [by eexists _, _|].
    apply IH.
Qed.

Lemma ingest_file_returns E fuel file_path meta w :
  (attempt_ceiling (MAX_RETRIES (cfg E)) <= fuel)%nat ->
  (forall s, extract_text E file_path = Ok s ->
             is_Some (chunk_text (cfg E) fuel s None None)) ->
  exists r w',
    IngestionPipeline.ingest_file E fuel file_path meta w = Some (r, w').
Proof.
  intros Hfuel Hchunks. unfold IngestionPipeline.ingest_file.
  destruct (path_exists E file_path); simpl negb; cbv iota;
    [|by eexists _, _].
  unfold bind, IngestionPipeline.parse_file.
  destruct (bool_decide (path_suffix E file_path
                         ∈ IngestionPipeline.supported_extensions));
    [|by eexists _, _].
  destruct (extract_text E file_path) as [s|e]; [|by eexists _, _].
  destruct (negb (Py.truthy (Py.strip s))); [by eexists _, _|].
  destruct (Hchunks s eq_refl) as [chunks ->].
  destruct chunks as [|c chunks]; [by eexists _, _|].
  cbn [Py.truthy negb]. by apply ingest_chunks_returns.
Qed.

Lemma ingest_files_total E fuel meta files :
  (attempt_ceiling (MAX_RETRIES (cfg E)) <= fuel)%nat ->
  (forall f s, f ∈ files -> extract_text E f = Ok s ->
               is_Some (chunk_text (cfg E) fuel s None None)) ->
  forall results w, exists res w',
    IngestionPipeline.ingest_files E fuel meta files results w
      = Some (Ok res, w') /\
    dom res = dom results ∪ list_to_set files /\
    dom (collection w) ⊆ dom (collection w').
Proof.
  intros Hfuel.
  induction files as [|f rest IH]; intros Hchunks results w; simpl.
  - exists results, w. split; [done|]. split; set_solver.
  - unfold bind.
    destruct (ingest_file_returns E fuel f meta w Hfuel) as (r & w1 & Hf).
    { intros s. apply Hchunks. by left. }
    pose proof (ingest_file_outside _ _ _ _ _ _ _ Hf) as [_ Hdom].
    destruct r as [ids|e].
    + rewrite (ingest_one_ok _ _ _ _ _ _ _ _ Hf).
      destruct (IH (fun g s Hg => Hchunks g s (proj2 (elem_of_cons _ _ _) (or_intror Hg)))
                  (<[f := ids]> results) w1) as (res & w' & -> & Hres & Hd).
      exists res, w'. split; [done|]. rewrite Hres, dom_insert_L.
      split; set_solver.
    + rewrite (ingest_one_raise _ _ _ _ _ _ _ _ Hf).
      destruct (IH (fun g s Hg => Hchunks g s (proj2 (elem_of_cons _ _ _) (or_intror Hg)))
                  (<[f := []]> results) w1) as (res & w' & -> & Hres & Hd).
      exists res, w'. split; [done|]. rewrite Hres, dom_insert_L.
      split; set_solver.
Qed.

(** X18.  [ingest_directory] raises [FileNotFoundError] for a
    directory that does not exist and touches nothing.  For one that
    exists it returns normally once the fuel covers the retries and
    the chunking of each file: the result has exactly one entry per
    supported file found, a failing file included, and the store has
    lost no record. *)
Theorem ingest_directory_returns E fuel directory_path meta recursive w :
  let files :=
    List.filter
      (fun f => path_is_file E f
                && bool_decide (path_suffix E f
                                ∈ IngestionPipeline.supported_extensions))
      (glob E directory_path recursive) in
  (path_exists E directory_path = false ->
   IngestionPipeline.ingest_directory E fuel directory_path meta recursive w
     = Some (Raise (FileNotFoundError
                      (String.append "Directory not found: " directory_path)),
             w)) /\
  (path_exists E directory_path = true ->
   (attempt_ceiling (MAX_RETRIES (cfg E)) <= fuel)%nat ->
   (forall f s, f ∈ files -> extract_text E f = Ok s ->
                is_Some (chunk_text (cfg E) fuel s None None)) ->
   exists res w',
     IngestionPipeline.ingest_directory E fuel directory_path meta recursive w
       = Some (Ok res, w') /\
     dom res = list_to_set files /\
     dom (collection w) ⊆ dom (collection w')).
Proof.
  intros files. unfold IngestionPipeline.ingest_directory. split.
  - by intros ->.
  - intros -> Hfuel Hchunks. cbn [negb]. fold files.
    destruct (ingest_files_total E fuel meta files Hfuel Hchunks ∅ w)
      as (res & w' & Hrun & Hres & Hdom).
    exists res, w'. split; [done|]. split; [|done].
    rewrite Hres. set_solver.
Qed.

Lemma ingest_directory_returns_witness :
  path_exists quiet_env "docs" = true /\
  (attempt_ceiling (MAX_RETRIES (cfg quiet_env)) <= 3)%nat /\
  exists res w',
    IngestionPipeline.ingest_directory quiet_env 3 "docs" None false
      two_records_world = Some (Ok res, w') /\
    dom res = list_to_set ["docs/a.txt"; "docs/blank.txt"] /\
    dom (collection two_records_world) ⊆ dom (collection w').
Proof.
  assert (Hfuel : (attempt_ceiling (MAX_RETRIES (cfg quiet_env)) <= 3)%nat)
    by (vm_compute; lia).
  split; [reflexivity|]. split; [exact Hfuel|].
  apply (proj2 (ingest_directory_returns quiet_env 3 "docs" None false
                  two_records_world) eq_refl Hfuel).
  intros f s Hf Hs.
  change (f ∈ ["docs/a.txt"; "docs/blank.txt"]) in Hf.
  apply elem_of_cons in Hf as [->|Hf].
  { injection Hs as <-. vm_compute. by eexists. }
  apply elem_of_cons in Hf as [->|Hf]; [|by apply elem_of_nil in Hf].
  injection Hs as <-. vm_compute. by eexists.
Defined.

(** ** The context when every document fits *)

Lemma included_tokens_nonneg tk texts : 0 <= included_tokens tk texts.
Proof.
  unfold included_tokens.
  induction texts as [|s rest IH]; cbn [foldr]; [done|].
  pose proof (calculate_token_count_nonneg tk s). lia.
Qed.

Lemma select_texts_all tk docs : forall remaining,
  included_tokens tk (texts_of docs) <= remaining ->
  select_texts tk remaining docs = texts_of docs.
Proof.
  induction docs as [|doc rest IH]; intros remaining Hfit; [done|].
  pose proof (included_tokens_nonneg tk (texts_of rest)) as Hrest.
  change (texts_of (doc :: rest))
    with (get (text_ doc) [] :: texts_of rest) in *.
  change (included_tokens tk (get (text_ doc) [] :: texts_of rest))
    with (Utils.calculate_token_count tk (get (text_ doc) [])
          + included_tokens tk (texts_of rest)) in Hfit.
  cbn [select_texts].
  destruct (Z.leb_spec (Utils.calculate_token_count tk (get (text_ doc) []))
              remaining); [|lia].
  f_equal. apply IH. lia.
Qed.

(** X19.  When the token counts of all retrieved documents sum to no
    more than the budget, the context holds every document whole, in
    order, as blocks numbered from 1. *)
Theorem build_context_all_fit tk docs B :
  included_tokens tk (texts_of docs) <= B ->
  RagEngine.build_context tk docs B
    = RagEngine.join [RagEngine.newline; RagEngine.newline]
        (number_blocks 1 (texts_of docs)).
Proof.
  intros Hfit. unfold RagEngine.build_context.
  rewrite context_loop_spec. simpl app.
  rewrite select_texts_all; [done|]. by rewrite Z.sub_0_r.
Qed.

Lemma build_context_all_fit_witness :
  included_tokens Unavailable (texts_of [short_document; short_document]) <= 2 /\
  RagEngine.build_context Unavailable [short_document; short_document] 2
    = RagEngine.join [RagEngine.newline; RagEngine.newline]
        (number_blocks 1 (texts_of [short_document; short_document])).
Proof.
  assert (H : included_tokens Unavailable
                (texts_of [short_document; short_document]) <= 2)
    by (vm_compute; discriminate).
  split; [exact H|].
  apply (build_context_all_fit Unavailable [short_document; short_document] 2 H).
Defined.

(** ** Where a window is cut *)









(** ** Precision at K *)

(** X21.  For a positive [k], Precision@K is a score between 0 and 1:
    the number of relevant identifiers among the first [k] retrieved
    ones over [k]; the count is also bounded by the number of
    retrieved identifiers, so fewer than [k] results cannot reach 1. *)
Theorem precision_at_k_bounds retrieved_ids expected_ids k :
  0 < k ->
  exists p,
    Eval.calculate_precision_at_k retrieved_ids expected_ids k = Ok p /\
    in_unit_interval p /\
    (forall n, p = Eval.Quotient n k -> n <= len retrieved_ids).
Proof.
  intros Hk. unfold Eval.calculate_precision_at_k.
  destruct (negb (Py.truthy retrieved_ids) || bool_decide (expected_ids = ∅)).
  { exists Eval.Zero. by repeat split. }
  destruct (Z.eqb_spec k 0) as [|Hk0]; [lia|].
  eexists. split; [reflexivity|].
  set (top_k := Py.slice_to retrieved_ids k).
  pose proof (length_filter (fun doc_id => doc_id ∈ expected_ids) top_k) as Hf.
  assert (Hcut : len top_k <= k).
  { unfold top_k, Py.slice_to. rewrite slice_nonneg by lia.
    unfold len. rewrite length_take, length_drop. lia. }
  assert (Htop : len top_k <= len retrieved_ids).
  { unfold top_k, Py.slice_to. rewrite slice_nonneg by lia.
    unfold len. rewrite length_take, length_drop. lia. }
  unfold len in *. split.
  - simpl. lia.
  - intros n [= <-]. lia.
Qed.

Lemma precision_at_k_bounds_witness :
  0 < 2 /\
  exists p,
    Eval.calculate_precision_at_k ["a"; "x"; "b"] {["a"; "b"]} 2 = Ok p /\
    in_unit_interval p /\
    (forall n, p = Eval.Quotient n 2 -> n <= len ["a"; "x"; "b"]).
Proof.
  split; [lia|].
  apply (precision_at_k_bounds ["a"; "x"; "b"] {["a"; "b"]} 2). lia.
Defined.

(** X22.  With results and expectations at hand, [k = 0] makes
    Precision@K raise [ZeroDivisionError], and a negative [k] makes it
    a quotient of a count by a negative number, a score that is never
    positive. *)
Theorem precision_at_k_bad_k retrieved_ids expected_ids k :
  retrieved_ids <> [] -> expected_ids <> ∅ -> k <= 0 ->
  (k = 0 ->
   Eval.calculate_precision_at_k retrieved_ids expected_ids k
     = Raise (Eval.ZeroDivisionError "division by zero")) /\
  (k < 0 ->
   exists n,
     Eval.calculate_precision_at_k retrieved_ids expected_ids k
       = Ok (Eval.Quotient n k) /\ 0 <= n).
Proof.
  intros Hr He Hk. unfold Eval.calculate_precision_at_k.
  destruct retrieved_ids as [|r0 rest]; [done|]. cbn [Py.truthy negb orb].
  rewrite bool_decide_eq_false_2 by done.
  split.
  - by intros ->.
  - intros Hneg. destruct (Z.eqb_spec k 0) as [|Hk0]; [lia|].
    eexists. split; [reflexivity|]. apply len_nonneg.
Qed.

Lemma precision_at_k_bad_k_witness :
  ["a"; "x"] <> @nil string /\ ({["a"]} : gset string) <> ∅ /\ -1 <= 0 /\
  exists n,
    Eval.calculate_precision_at_k ["a"; "x"] {["a"]} (-1)
      = Ok (Eval.Quotient n (-1)) /\ 0 <= n.
Proof.
  assert (H1 : ["a"; "x"] <> @nil string) by done.
  assert (H2 : ({["a"]} : gset string) <> ∅).
  { intros H. assert (Hin : "a" ∈ ({["a"]} : gset string)) by set_solver.
    rewrite H in Hin. set_solver. }
  split; [exact H1|]. split; [exact H2|]. split; [lia|].
  apply (proj2 (precision_at_k_bad_k ["a"; "x"] {["a"]} (-1) H1 H2
                  ltac:(lia))). lia.
Defined.

(** ** Truncation of a text that fits *)

(** X23.  [truncate_text] returns a text unchanged when its tokens fit
    ([tiktoken]) and, in the fallback, exactly when it has at most
    [4 * max_tokens] characters; the fallback result is always a
    prefix of the text. *)
Theorem truncate_text_fits tk s max_tokens :
  (forall encode decode,
     tk = Tiktoken encode decode ->
     Utils.calculate_token_count tk s <= max_tokens ->
     Utils.truncate_text tk s max_tokens = s) /\
  (tk = Unavailable ->
   Utils.truncate_text tk s max_tokens `prefix_of` s /\
   (0 <= max_tokens ->
    (Utils.truncate_text tk s max_tokens = s <-> len s <= 4 * max_tokens))).
Proof.
  split.
  - intros encode decode -> Hfit. simpl in *.
    by destruct (Z.leb_spec (len (encode s)) max_tokens); [|lia].
  - intros ->. simpl. unfold Py.slice_to. split.
    + unfold Py.slice. replace (Py.slice_index (len s) 0) with 0
        by (unfold Py.slice_index; pose proof (len_nonneg s);
            destruct (Z.ltb_spec 0 0); lia).
      simpl. rewrite drop_0. apply prefix_take.
    + intros Hn. rewrite slice_nonneg by lia.
      pose proof (len_nonneg s) as Hl.
      replace (Z.min 0 (len s)) with 0 by lia. simpl. rewrite Z.sub_0_r.
      split.
      * intros H. apply (f_equal length) in H. rewrite length_take in H.
        unfold len in *. lia.
      * intros H. apply take_ge. unfold len in *. lia.
Qed.

Lemma truncate_text_fits_witness :
  Utils.truncate_text Unavailable (txt "abcdefg") 1 `prefix_of` txt "abcdefg" /\
  (Utils.truncate_text Unavailable (txt "abcdefg") 1 = txt "abcdefg"
   <-> len (txt "abcdefg") <= 4 * 1).
Proof.
  destruct (proj2 (truncate_text_fits Unavailable (txt "abcdefg") 1) eq_refl)
    as [H1 H2].
  split; [exact H1|]. apply H2. lia.
Defined.

(** ** Zero as an argument *)

(** X24.  An explicit [0] for [max_chunk_size], [overlap] or [top_k]
    is read as "not given": the configured default is used, so
    neither a zero overlap nor a zero result count can be asked
    for. *)
Theorem zero_means_default E fuel s q max_chunk_size overlap filter_criteria :
  chunk_text (cfg E) fuel s (Some 0) overlap
    = chunk_text (cfg E) fuel s None overlap /\
  chunk_text (cfg E) fuel s max_chunk_size (Some 0)
    = chunk_text (cfg E) fuel s max_chunk_size
        (Some (CHUNK_OVERLAP (cfg E))) /\
  RagEngine.retrieve E fuel q (Some 0) filter_criteria
    = RagEngine.retrieve E fuel q (Some (TOP_K_RESULTS (cfg E)))
        filter_criteria.
Proof.
  unfold chunk_text, RagEngine.retrieve, Py.int_or.
  split; [done|]. split.
  - cbn [Z.eqb]. by destruct (CHUNK_OVERLAP (cfg E) =? 0) eqn:H;
      [apply Z.eqb_eq in H; rewrite H|].
  - cbn [Z.eqb]. by destruct (TOP_K_RESULTS (cfg E) =? 0) eqn:H;
      [apply Z.eqb_eq in H; rewrite H|].
Qed.
